(** * PolyFunc: the language-profile scorer and the configuration store

    A shallow embedding of the logic of the repository:

    - [Profile]: [src/languages/profile.js] — the class [LanguageProfile]
      with its method [matches], the four builtin profiles and
      [findBestLanguageForRequirements], with numbers as exact rationals;
    - [Double] and [Ranking]: the same file with numbers as the code
      computes them, IEEE 754 binary64, and with the registry enumerated
      as [Object.entries] does;
    - [Config]: [src/core/config.js] — the class [Config] with
      [deepMerge], [loadFromFile], [get] and [set] on documents, and the
      [loadFromFile] of the other copy of the class, which spreads the
      loaded document over the current one;
    - [Store]: [deepMerge] once more, on a store of objects passed by
      reference, to follow its writes;
    - [Cli]: the command [languages] of [src/cli/index.js], which sorts
      the use cases of the registry's profiles in place;
    - [Save]: [saveToFile] of the class [Config], with the calls it makes
      outside the repository;
    - [Client]: [src/llm/client.js] — the class [LLMClient] with its lazy
      [getClient] and its three methods, the library and the service being
      given as a world of calls that return or throw.

    Conventions of the embedding.

    - Numbers.  [Ranking] computes on doubles ([SpecFloat], precision 53,
      exponent 1024): rounding, [Infinity], [NaN] and the two zeros are
      those of the code, and every statement on the value of a score or on
      the outcome of a comparison is made there.  [Profile] computes on
      exact rationals ([Q]); the statements made there equate two runs of
      one computation, or evaluate it where it is exact.
    - [undefined] and an absent property read alike in the source; a missing
      optional field of a requirements object is [None].
    - An object is a finite map from property names to values: its own
      properties.  The builtin prototypes are taken to be as the language
      defines them.  What an object inherits shows in three places.  A
      read that may find a builtin ([Config.getProp]) and a write that
      runs the setter of [__proto__] ([Config.putProp]) are
      [Unmodelled].  [Config.deepMerge] takes [key in target] for the
      lookup of an own property and [output[key] = ...] for an insertion,
      which is what the code does but for the names of
      [Config.inheritedNames]; the statements on it are for sources with
      none of these names as keys ([Config.ownNames]), or for keys that
      the target has itself.
    - In [Config] a document is a tree, and an update in place is the
      updated tree; [Store] keeps the references.  The numbers of a
      document are not computed with, and are rationals.
    - A string is a sequence of characters of one code unit each, so that
      its indices and its length are those of the code.
    - An exception is an explicit outcome ([Throws]); [try]/[catch] is the
      combinator [try_catch]. *)

From Stdlib Require Import QArith Ascii String.
From Stdlib Require SpecFloat.
From stdpp Require Import gmap strings list fin_maps pretty sorting.

#[local] Set Warnings "-register-all".
#[local] Open Scope Q_scope.

(** ** Numbers *)

Definition Qlt_bool (x y : Q) : bool := negb (Qle_bool y x).

(** ** The language profiles ([src/languages/profile.js]) *)

Module Profile.

Record Characteristics := {
  performance : Q;
  memory : Q;
  startupTime : Q;
  ecosystem : Q;
  concurrency : Q
}.

(** The optional argument [characteristics] of the constructor: any
    subset of the five keys. *)
Record CharacteristicsInit := {
  init_performance : option Q;
  init_memory : option Q;
  init_startupTime : option Q;
  init_ecosystem : option Q;
  init_concurrency : option Q
}.

Definition noInit : CharacteristicsInit :=
  {| init_performance := None; init_memory := None;
     init_startupTime := None; init_ecosystem := None;
     init_concurrency := None |}.

Record UseCase := { uc_name : string; uc_score : Q }.

Record Library := { purpose : string; maturity : Q }.

Record LanguageProfile := {
  name : string;
  characteristics : Characteristics;
  useCases : list UseCase;
  libraries : gmap string Library
}.

(** [constructor(name, characteristics = {})]: the five defaults, then
    the caller's keys spread over them. *)
Definition new (name : string) (init : CharacteristicsInit)
  : LanguageProfile :=
  {| name := name;
     characteristics :=
       {| performance := default 5 (init_performance init);
          memory := default 5 (init_memory init);
          startupTime := default 5 (init_startupTime init);
          ecosystem := default 5 (init_ecosystem init);
          concurrency := default 5 (init_concurrency init) |};
     useCases := [];
     libraries := ∅ |}.

Definition addUseCase (useCase : string) (score : Q)
    (this : LanguageProfile) : LanguageProfile :=
  {| name := name this;
     characteristics := characteristics this;
     useCases := useCases this ++ [{| uc_name := useCase; uc_score := score |}];
     libraries := libraries this |}.

Definition addLibrary (lib purpose : string) (maturity : Q)
    (this : LanguageProfile) : LanguageProfile :=
  {| name := name this;
     characteristics := characteristics this;
     useCases := useCases this;
     libraries :=
       <[lib := {| purpose := purpose; maturity := maturity |}]>
         (libraries this) |}.

(** A requirements object: each of the five keys, when present, holds
    [{ weight }]; [useCase] and [useCaseWeight] are optional. *)
Record Weighted := { weight : Q }.

Record Requirements := {
  req_performance : option Weighted;
  req_memory : option Weighted;
  req_startupTime : option Weighted;
  req_ecosystem : option Weighted;
  req_concurrency : option Weighted;
  req_useCase : option string;
  req_useCaseWeight : option Q
}.


(** Truthiness of an optional string: [undefined] and the empty string
    are falsy. *)
Definition truthy_string (s : option string) : bool :=
  match s with
  | Some s => negb (String.eqb s "")
  | None => false
  end.

(** [w || d] on an optional number: [undefined] and [0] are falsy. *)
Definition number_or (w : option Q) (d : Q) : Q :=
  match w with
  | Some w => if Qeq_bool w 0 then d else w
  | None => d
  end.

(** One [if (requirements.dim) { score += ...; totalWeight += ... }]. *)
Definition accumulate (value : Q) (r : option Weighted) (acc : Q * Q)
  : Q * Q :=
  match r with
  | Some r => (acc.1 + value * weight r, acc.2 + weight r)
  | None => acc
  end.

(** The use-case block of [matches]. *)
Definition accumulateUseCase (this : LanguageProfile)
    (requirements : Requirements) (acc : Q * Q) : Q * Q :=
  if truthy_string (req_useCase requirements) then
    match
      find (λ uc, String.eqb (uc_name uc)
                    (default "" (req_useCase requirements)))
           (useCases this)
    with
    | Some useCase =>
        (acc.1 + uc_score useCase
                 * number_or (req_useCaseWeight requirements) 1,
         acc.2 + number_or (req_useCaseWeight requirements) 1)
    | None => acc
    end
  else acc.

Definition matches (this : LanguageProfile) (requirements : Requirements)
  : Q :=
  let c := characteristics this in
  let acc := (0, 0) in
  let acc := accumulate (performance c) (req_performance requirements) acc in
  let acc := accumulate (memory c) (req_memory requirements) acc in
  let acc := accumulate (startupTime c) (req_startupTime requirements) acc in
  let acc := accumulate (ecosystem c) (req_ecosystem requirements) acc in
  let acc := accumulate (concurrency c) (req_concurrency requirements) acc in
  let acc := accumulateUseCase this requirements acc in
  let '(score, totalWeight) := acc in
  if Qlt_bool 0 totalWeight then score / totalWeight else 0.

(** The builtin profiles. *)
Definition init (p m s e c : Q) : CharacteristicsInit :=
  {| init_performance := Some p; init_memory := Some m;
     init_startupTime := Some s; init_ecosystem := Some e;
     init_concurrency := Some c |}.

Definition javascriptProfile : LanguageProfile :=
  addLibrary "node-fetch" "http client" 8
    (addLibrary "express" "web server" 9
      (addUseCase "data" 6
        (addUseCase "scripting" 9
          (addUseCase "api" 8
            (addUseCase "web" 9
              (new "javascript" (init 6 5 7 9 6))))))).

Definition pythonProfile : LanguageProfile :=
  addLibrary "pandas" "data processing" 9
    (addLibrary "flask" "web server" 8
      (addUseCase "web" 6
        (addUseCase "scripting" 9
          (addUseCase "ml" 10
            (addUseCase "data" 9
              (new "python" (init 5 6 6 9 5))))))).

Definition goProfile : LanguageProfile :=
  addLibrary "gorm" "orm" 7
    (addLibrary "gin" "web framework" 8
      (addUseCase "system" 8
        (addUseCase "api" 8
          (addUseCase "concurrency" 10
            (addUseCase "performance" 9
              (new "go" (init 8 8 9 7 10))))))).

Definition rustProfile : LanguageProfile :=
  addLibrary "serde" "serialization" 9
    (addLibrary "actix-web" "web server" 8
      (addUseCase "embedded" 9
        (addUseCase "concurrency" 9
          (addUseCase "performance" 10
            (addUseCase "system" 10
              (new "rust" (init 10 9 7 6 9))))))).

(** The registry [profiles] is the sequence [Object.entries] yields for
    it: the pairs of a name and its profile, in the order the names were
    added (names are taken not to be array indices, which JavaScript
    would enumerate first). *)
Definition profiles : list (string * LanguageProfile) :=
  [("javascript", javascriptProfile);
   ("python", pythonProfile);
   ("go", goProfile);
   ("rust", rustProfile)].

Record ScoreResult := {
  language : option string;
  score : Q;
  profile : option LanguageProfile
}.

(** [this.profiles[name]]. *)
Fixpoint lookupProfile (name : string)
    (profiles : list (string * LanguageProfile)) : option LanguageProfile :=
  match profiles with
  | [] => None
  | (n, p) :: rest =>
      if String.eqb n name then Some p else lookupProfile name rest
  end.

(** The body of the [for ... of] loop on the pair
    [(bestScore, bestLanguage)]. *)
Definition visit (requirements : Requirements)
    (best : Q * option string) (entry : string * LanguageProfile)
  : Q * option string :=
  let score := matches entry.2 requirements in
  if Qlt_bool best.1 score then (score, Some entry.1) else best.

Definition findBestLanguageForRequirements
    (profiles : list (string * LanguageProfile))
    (requirements : Requirements) : ScoreResult :=
  let '(bestScore, bestLanguage) :=
    fold_left (visit requirements) profiles (-1, None) in
  {| language := bestLanguage;
     score := bestScore;
     profile :=
       if truthy_string bestLanguage
       then lookupProfile (default "" bestLanguage) profiles
       else None |}.

(** *** The ratings by dimension, and the table of the builtin values *)

Inductive Dimension :=
  Performance | Memory | StartupTime | Ecosystem | Concurrency.

Definition dimensions : list Dimension :=
  [Performance; Memory; StartupTime; Ecosystem; Concurrency].

Definition rating (this : LanguageProfile) (d : Dimension) : Q :=
  let c := characteristics this in
  match d with
  | Performance => performance c
  | Memory => memory c
  | StartupTime => startupTime c
  | Ecosystem => ecosystem c
  | Concurrency => concurrency c
  end.

Definition firstUseCase (this : LanguageProfile) (useCase : string)
  : option UseCase :=
  find (λ uc, String.eqb (uc_name uc) useCase) (useCases this).

(** The table of builtin values of the specification: name, the five
    ratings in the order performance, memory, startupTime, ecosystem,
    concurrency, and the use cases with their scores. *)
Definition tabulated : list (string * list Q * list (string * Q)) :=
  [("javascript", [6; 5; 7; 9; 6],
    [("web", 9); ("api", 8); ("scripting", 9); ("data", 6)]);
   ("python", [5; 6; 6; 9; 5],
    [("data", 9); ("ml", 10); ("scripting", 9); ("web", 6)]);
   ("go", [8; 8; 9; 7; 10],
    [("performance", 9); ("concurrency", 10); ("api", 8); ("system", 8)]);
   ("rust", [10; 9; 7; 6; 9],
    [("system", 10); ("performance", 10); ("concurrency", 9);
     ("embedded", 9)])].

Definition summary (entry : string * LanguageProfile)
  : string * list Q * list (string * Q) :=
  (entry.1,
   rating entry.2 <$> dimensions,
   (λ uc, (uc_name uc, uc_score uc)) <$> useCases entry.2).

End Profile.

(** ** Numbers as the code computes them: IEEE 754 binary64 *)

Module Double.

Definition number := SpecFloat.spec_float.

Definition NaN : number := SpecFloat.S754_nan.

Definition add : number → number → number := SpecFloat.SFadd 53 1024.
Definition mul : number → number → number := SpecFloat.SFmul 53 1024.
Definition div : number → number → number := SpecFloat.SFdiv 53 1024.

(** [x < y], which is false when either side is [NaN]; [y > x] is the
    same test. *)
Definition lt : number → number → bool := SpecFloat.SFltb.

(** The double an integer literal denotes: the nearest one. *)
Definition ofZ (z : Z) : number :=
  SpecFloat.binary_normalize 53 1024 z 0 false.

(** The double a decimal literal denotes, given as a fraction of two
    integers below 2^53: [0.35] is [decimal 35 100]. *)
Definition decimal (n d : Z) : number := div (ofZ n) (ofZ d).

(** Truthiness of a number: [0], [-0] and [NaN] are falsy. *)
Definition truthy (x : number) : bool :=
  match x with
  | SpecFloat.S754_zero _ | SpecFloat.S754_nan => false
  | _ => true
  end.

(** The place of a number in the order of [<]: the sign class, then
    exponent and mantissa, both negated below zero.  [NaN] has none. *)
Definition place (x : number) : option (Z * Z * Z) :=
  match x with
  | SpecFloat.S754_nan => None
  | SpecFloat.S754_infinity true => Some (-2, 0, 0)%Z
  | SpecFloat.S754_finite true m e => Some (-1, - e, Z.neg m)%Z
  | SpecFloat.S754_zero _ => Some (0, 0, 0)%Z
  | SpecFloat.S754_finite false m e => Some (1, e, Z.pos m)%Z
  | SpecFloat.S754_infinity false => Some (2, 0, 0)%Z
  end.

Definition before (a b : Z * Z * Z) : Prop :=
  (a.1.1 < b.1.1
   ∨ a.1.1 = b.1.1
     ∧ (a.1.2 < b.1.2 ∨ a.1.2 = b.1.2 ∧ a.2 < b.2))%Z.

End Double.

(** ** The language profiles on doubles ([src/languages/profile.js]) *)

Module Ranking.
Import Double.

Record Characteristics := {
  performance : number;
  memory : number;
  startupTime : number;
  ecosystem : number;
  concurrency : number
}.

Record CharacteristicsInit := {
  init_performance : option number;
  init_memory : option number;
  init_startupTime : option number;
  init_ecosystem : option number;
  init_concurrency : option number
}.

Record UseCase := { uc_name : string; uc_score : number }.

Record Library := { purpose : string; maturity : number }.

Record LanguageProfile := {
  name : string;
  characteristics : Characteristics;
  useCases : list UseCase;
  libraries : gmap string Library
}.

(** [constructor(name, characteristics = {})]. *)
Definition new (name : string) (init : CharacteristicsInit)
  : LanguageProfile :=
  {| name := name;
     characteristics :=
       {| performance := default (ofZ 5) (init_performance init);
          memory := default (ofZ 5) (init_memory init);
          startupTime := default (ofZ 5) (init_startupTime init);
          ecosystem := default (ofZ 5) (init_ecosystem init);
          concurrency := default (ofZ 5) (init_concurrency init) |};
     useCases := [];
     libraries := ∅ |}.

Definition addUseCase (useCase : string) (score : number)
    (this : LanguageProfile) : LanguageProfile :=
  {| name := name this;
     characteristics := characteristics this;
     useCases := useCases this ++ [{| uc_name := useCase; uc_score := score |}];
     libraries := libraries this |}.

Definition addLibrary (lib purpose : string) (maturity : number)
    (this : LanguageProfile) : LanguageProfile :=
  {| name := name this;
     characteristics := characteristics this;
     useCases := useCases this;
     libraries :=
       <[lib := {| purpose := purpose; maturity := maturity |}]>
         (libraries this) |}.

(** A requirements object: each of the five keys, when it holds an
    object, gives a [weight]; a weight that is missing reads as
    [undefined], which is [NaN] in the arithmetic of [matches]. *)
Record Weighted := { weight : number }.

Record Requirements := {
  req_performance : option Weighted;
  req_memory : option Weighted;
  req_startupTime : option Weighted;
  req_ecosystem : option Weighted;
  req_concurrency : option Weighted;
  req_useCase : option string;
  req_useCaseWeight : option number
}.

Definition truthy_string (s : option string) : bool :=
  match s with
  | Some s => negb (String.eqb s "")
  | None => false
  end.

(** [w || d] on an optional number. *)
Definition number_or (w : option number) (d : number) : number :=
  match w with
  | Some w => if truthy w then w else d
  | None => d
  end.

(** One [if (requirements.dim) { score += ...; totalWeight += ... }]. *)
Definition accumulate (value : number) (r : option Weighted)
    (acc : number * number) : number * number :=
  match r with
  | Some r => (add acc.1 (mul value (weight r)), add acc.2 (weight r))
  | None => acc
  end.

(** The use-case block of [matches]. *)
Definition accumulateUseCase (this : LanguageProfile)
    (requirements : Requirements) (acc : number * number)
  : number * number :=
  if truthy_string (req_useCase requirements) then
    match
      find (λ uc, String.eqb (uc_name uc)
                    (default "" (req_useCase requirements)))
           (useCases this)
    with
    | Some useCase =>
        (add acc.1
           (mul (uc_score useCase)
              (number_or (req_useCaseWeight requirements) (ofZ 1))),
         add acc.2 (number_or (req_useCaseWeight requirements) (ofZ 1)))
    | None => acc
    end
  else acc.

Definition matches (this : LanguageProfile) (requirements : Requirements)
  : number :=
  let c := characteristics this in
  let acc := (ofZ 0, ofZ 0) in
  let acc := accumulate (performance c) (req_performance requirements) acc in
  let acc := accumulate (memory c) (req_memory requirements) acc in
  let acc := accumulate (startupTime c) (req_startupTime requirements) acc in
  let acc := accumulate (ecosystem c) (req_ecosystem requirements) acc in
  let acc := accumulate (concurrency c) (req_concurrency requirements) acc in
  let acc := accumulateUseCase this requirements acc in
  let '(score, totalWeight) := acc in
  if lt (ofZ 0) totalWeight then div score totalWeight else ofZ 0.

(** The score in the words of the specification: the use case named by
    the query counts whatever the name is, with the weight
    [useCaseWeight ?? 1]. *)
Definition accumulateUseCaseStated (this : LanguageProfile)
    (requirements : Requirements) (acc : number * number)
  : number * number :=
  match req_useCase requirements with
  | Some named =>
      match find (λ uc, String.eqb (uc_name uc) named) (useCases this) with
      | Some useCase =>
          (add acc.1
             (mul (uc_score useCase)
                (default (ofZ 1) (req_useCaseWeight requirements))),
           add acc.2 (default (ofZ 1) (req_useCaseWeight requirements)))
      | None => acc
      end
  | None => acc
  end.

Definition matchesStated (this : LanguageProfile)
    (requirements : Requirements) : number :=
  let c := characteristics this in
  let acc := (ofZ 0, ofZ 0) in
  let acc := accumulate (performance c) (req_performance requirements) acc in
  let acc := accumulate (memory c) (req_memory requirements) acc in
  let acc := accumulate (startupTime c) (req_startupTime requirements) acc in
  let acc := accumulate (ecosystem c) (req_ecosystem requirements) acc in
  let acc := accumulate (concurrency c) (req_concurrency requirements) acc in
  let acc := accumulateUseCaseStated this requirements acc in
  let '(score, totalWeight) := acc in
  if lt (ofZ 0) totalWeight then div score totalWeight else ofZ 0.

(** The builtin profiles. *)
Definition init (p m s e c : Z) : CharacteristicsInit :=
  {| init_performance := Some (ofZ p); init_memory := Some (ofZ m);
     init_startupTime := Some (ofZ s); init_ecosystem := Some (ofZ e);
     init_concurrency := Some (ofZ c) |}.

Definition javascriptProfile : LanguageProfile :=
  addLibrary "node-fetch" "http client" (ofZ 8)
    (addLibrary "express" "web server" (ofZ 9)
      (addUseCase "data" (ofZ 6)
        (addUseCase "scripting" (ofZ 9)
          (addUseCase "api" (ofZ 8)
            (addUseCase "web" (ofZ 9)
              (new "javascript" (init 6 5 7 9 6))))))).

Definition pythonProfile : LanguageProfile :=
  addLibrary "pandas" "data processing" (ofZ 9)
    (addLibrary "flask" "web server" (ofZ 8)
      (addUseCase "web" (ofZ 6)
        (addUseCase "scripting" (ofZ 9)
          (addUseCase "ml" (ofZ 10)
            (addUseCase "data" (ofZ 9)
              (new "python" (init 5 6 6 9 5))))))).

Definition goProfile : LanguageProfile :=
  addLibrary "gorm" "orm" (ofZ 7)
    (addLibrary "gin" "web framework" (ofZ 8)
      (addUseCase "system" (ofZ 8)
        (addUseCase "api" (ofZ 8)
          (addUseCase "concurrency" (ofZ 10)
            (addUseCase "performance" (ofZ 9)
              (new "go" (init 8 8 9 7 10))))))).

Definition rustProfile : LanguageProfile :=
  addLibrary "serde" "serialization" (ofZ 9)
    (addLibrary "actix-web" "web server" (ofZ 8)
      (addUseCase "embedded" (ofZ 9)
        (addUseCase "concurrency" (ofZ 9)
          (addUseCase "performance" (ofZ 10)
            (addUseCase "system" (ofZ 10)
              (new "rust" (init 10 9 7 6 9))))))).

(** A registry: the own properties of the object [profiles], each a name
    with its profile, in the order in which they were created, which is
    the order in which the profiles were registered. *)
Definition profiles : list (string * LanguageProfile) :=
  [("javascript", javascriptProfile);
   ("python", pythonProfile);
   ("go", goProfile);
   ("rust", rustProfile)].

(** The array index a property name denotes, if any: a decimal numeral
    without a leading zero, below 2^32 - 1. *)
Definition digit (c : ascii) : option N :=
  let n := N_of_ascii c in
  if (48 <=? n)%N && (n <=? 57)%N then Some (n - 48)%N else None.

Fixpoint numeral (acc : N) (s : string) : option N :=
  match s with
  | EmptyString => Some acc
  | String c rest =>
      match digit c with
      | Some d => numeral (10 * acc + d)%N rest
      | None => None
      end
  end.

Definition arrayIndex (name : string) : option N :=
  match name with
  | EmptyString => None
  | String c rest =>
      if Ascii.eqb c "0" && negb (String.eqb rest "") then None
      else
        match numeral 0 name with
        | Some n => if (n <? 4294967295)%N then Some n else None
        | None => None
        end
  end.

Definition named (entry : string * LanguageProfile) : bool :=
  match arrayIndex entry.1 with
  | Some _ => false
  | None => true
  end.

Fixpoint insertIndexed (e : N * (string * LanguageProfile))
    (sorted : list (N * (string * LanguageProfile)))
  : list (N * (string * LanguageProfile)) :=
  match sorted with
  | [] => [e]
  | f :: rest =>
      if (e.1 <? f.1)%N then e :: sorted else f :: insertIndexed e rest
  end.

(** [Object.entries(this.profiles)]: the properties whose names are array
    indices come first, in ascending order of the index, then the others
    in the order of their creation. *)
Definition entries (registry : list (string * LanguageProfile))
  : list (string * LanguageProfile) :=
  (foldr insertIndexed []
     (omap (λ e, (λ i, (i, e)) <$> arrayIndex e.1) registry)).*2
  ++ List.filter named registry.

Record ScoreResult := {
  language : option string;
  score : number;
  profile : option LanguageProfile
}.

(** [this.profiles[name]] for a name among the own properties. *)
Fixpoint lookupProfile (name : string)
    (registry : list (string * LanguageProfile)) : option LanguageProfile :=
  match registry with
  | [] => None
  | (n, p) :: rest =>
      if String.eqb n name then Some p else lookupProfile name rest
  end.

(** The body of the [for ... of] loop on the pair
    [(bestScore, bestLanguage)]. *)
Definition visit (requirements : Requirements)
    (best : number * option string) (entry : string * LanguageProfile)
  : number * option string :=
  let score := matches entry.2 requirements in
  if lt best.1 score then (score, Some entry.1) else best.

Definition findBestLanguageForRequirements
    (registry : list (string * LanguageProfile))
    (requirements : Requirements) : ScoreResult :=
  let '(bestScore, bestLanguage) :=
    fold_left (visit requirements) (entries registry) (ofZ (-1), None) in
  {| language := bestLanguage;
     score := bestScore;
     profile :=
       if truthy_string bestLanguage
       then lookupProfile (default "" bestLanguage) registry
       else None |}.

End Ranking.

(** ** The configuration store ([src/core/config.js]) *)

Module Config.

(** A document: what [JSON.parse] and [yaml.parse] return and what the
    store holds.  Documents are trees; an update in place of a nested
    object is mirrored by storing the updated child back under the key it
    was read from. *)
Inductive value :=
  | VUndefined
  | VNull
  | VBool (b : bool)
  | VNum (q : Q)
  | VStr (s : string)
  | VArr (elements : list value)
  | VObj (properties : gmap string value).

Inductive error :=
  | TypeError
  | SyntaxError
  | SystemError
  | UnsupportedFormat (extension : string).

(** The outcome of a run: a returned value, a thrown exception, or a
    step that the embedding does not model: a read that may find a
    builtin of a prototype, a write that changes a prototype, [set]
    through an array. *)
Inductive outcome (A : Type) :=
  | Returns (a : A)
  | Throws (e : error)
  | Unmodelled.
Arguments Returns {A} a.
Arguments Throws {A} e.
Arguments Unmodelled {A}.

#[export] Instance outcome_bind : MBind outcome := λ A B f x,
  match x with
  | Returns a => f a
  | Throws e => Throws e
  | Unmodelled => Unmodelled
  end.

(** [try { body } catch (error) { handler }]. *)
Definition try_catch {A} (body : outcome A) (handler : error → outcome A)
  : outcome A :=
  match body with
  | Throws e => handler e
  | _ => body
  end.

(** [isObject(item)]:
    [item && typeof item === 'object' && !Array.isArray(item)]. *)
Definition isObject (item : value) : bool :=
  match item with
  | VObj _ => true
  | _ => false
  end.

(** Truthiness, as [!current[k]] tests it. *)
Definition truthy (v : value) : bool :=
  match v with
  | VUndefined | VNull => false
  | VBool b => b
  | VNum q => negb (Qeq_bool q 0)
  | VStr s => negb (String.eqb s "")
  | VArr _ | VObj _ => true
  end.

Definition number (n : nat) : value := VNum (inject_Z (Z.of_nat n)).

(** The properties of an array or of a string under its indices. *)
Definition indexed {A} (l : list A) : gmap string A :=
  list_to_map (imap (λ i x, (pretty i, x)) l).

Definition characters (s : string) : list value :=
  (λ c, VStr (String c EmptyString)) <$> String.list_ascii_of_string s.

(** The enumerable own properties of a value, which the spread
    [{ ...v }] copies: those of an object, the indexed elements of an
    array, the indexed characters of a string, none otherwise. *)
Definition ownProperties (v : value) : gmap string value :=
  match v with
  | VObj properties => properties
  | VArr elements => indexed elements
  | VStr s => indexed (characters s)
  | _ => ∅
  end.

(** The names every object inherits from [Object.prototype]. *)
Definition inheritedNames : list string :=
  ["__proto__"; "constructor"; "hasOwnProperty"; "isPrototypeOf";
   "propertyIsEnumerable"; "toLocaleString"; "toString"; "valueOf";
   "__defineGetter__"; "__defineSetter__"; "__lookupGetter__";
   "__lookupSetter__"].

Definition inherited (key : string) : bool :=
  existsb (String.eqb key) inheritedNames.

(** A name made of decimal digits: no builtin has such a name. *)
Definition digits (key : string) : bool :=
  negb (String.eqb key "")
  && forallb (λ c, let n := nat_of_ascii c in
                   (48 <=? n)%nat && (n <=? 57)%nat)
       (String.list_ascii_of_string key).

(** The read [v[k]] of a name that is not an own property: the [length]
    of an array or of a string, and [undefined] for a name that nothing
    along the prototype chain has.  Where the name may be that of a
    builtin (for an object, one of the names inherited from
    [Object.prototype]; for an array, a string, a number or a boolean, any
    name that is not made of digits) the read is left out. *)
Definition absent (v : value) (k : string) : outcome value :=
  match v with
  | VUndefined | VNull => Throws TypeError
  | VObj _ => if inherited k then Unmodelled else Returns VUndefined
  | VArr elements =>
      if String.eqb k "length" then Returns (number (length elements))
      else if digits k then Returns VUndefined else Unmodelled
  | VStr s =>
      if String.eqb k "length" then Returns (number (String.length s))
      else if digits k then Returns VUndefined else Unmodelled
  | VBool _ | VNum _ =>
      if digits k then Returns VUndefined else Unmodelled
  end.

(** The read [v[k]]: an own property, or what [absent] gives; reading a
    property of [null] or [undefined] throws. *)
Definition getProp (v : value) (k : string) : outcome value :=
  match v with
  | VUndefined | VNull => Throws TypeError
  | _ =>
      match ownProperties v !! k with
      | Some x => Returns x
      | None => absent v k
      end
  end.

(** The write [v[k] = x] in strict mode (the body of a class is strict):
    on an object it sets the property, but for the name [__proto__], when
    it is not an own property, the inherited setter runs: it ignores a
    primitive and changes the prototype for an object or [null], which is
    left out; on a primitive, on [null] and on [undefined] the write
    throws. *)
Definition putProp (v : value) (k : string) (x : value) : outcome value :=
  match v with
  | VObj properties =>
      match properties !! k with
      | Some _ => Returns (VObj (<[k := x]> properties))
      | None =>
          if String.eqb k "__proto__" then
            match x with
            | VObj _ | VArr _ | VNull => Unmodelled
            | _ => Returns (VObj properties)
            end
          else Returns (VObj (<[k := x]> properties))
      end
  | VArr _ => Unmodelled
  | _ => Throws TypeError
  end.

(** [key.split('.')]. *)
Fixpoint split (key : string) : list string :=
  match key with
  | EmptyString => [EmptyString]
  | String c rest =>
      if Ascii.eqb c "."%char then EmptyString :: split rest
      else
        match split rest with
        | k :: keys => String c k :: keys
        | [] => [String c EmptyString]
        end
  end.

(** [deepMerge(target, source)].  The order in which [forEach] visits the
    keys of [source] does not show in the result, the keys being
    distinct.  [key in target] is the lookup of an own property and
    [output[key] = ...] an insertion: so the code has it for every key
    that is an own key of the target or is not one of [inheritedNames]. *)
Fixpoint deepMerge (target source : value) {struct source} : value :=
  let output := ownProperties target in
  match target, source with
  | VObj targetProperties, VObj sourceProperties =>
      VObj
        (map_fold
           (λ key sourceValue output,
              if isObject sourceValue then
                match targetProperties !! key with
                | None => <[key := sourceValue]> output
                | Some targetValue =>
                    <[key := deepMerge targetValue sourceValue]> output
                end
              else <[key := sourceValue]> output)
           output sourceProperties)
  | _, _ => VObj output
  end.

(** The depth to which mappings are nested in a document by way of
    their properties. *)
Fixpoint depth (v : value) : nat :=
  match v with
  | VObj properties =>
      S (map_fold (λ _ child d, depth child `max` d) 0%nat properties)
  | _ => 0
  end.

(** What [loadFromFile] calls outside the repository; each call returns
    or throws. *)
Record Environment := {
  readFileSync : string → error + string;
  extname : string → string;
  JSON_parse : string → error + value;
  yaml_parse : string → error + value
}.

Definition call {A} (r : error + A) : outcome A :=
  match r with
  | inl e => Throws e
  | inr a => Returns a
  end.

Definition toLowerCase (s : string) : string :=
  String.string_of_list_ascii
    ((λ c, let n := nat_of_ascii c in
           if (65 <=? n)%nat && (n <=? 90)%nat
           then ascii_of_nat (n + 32) else c)
     <$> String.list_ascii_of_string s).

(** The choice of the parser in [loadFromFile]. *)
Definition parse (env : Environment) (extension fileContents : string)
  : outcome value :=
  if String.eqb extension ".json" then call (JSON_parse env fileContents)
  else if bool_decide (extension ∈ [".yml"; ".yaml"]%string)
  then call (yaml_parse env fileContents)
  else Throws (UnsupportedFormat extension).

(** [loadFromFile(configPath)] on the document [this.config]: the new
    document and the boolean returned.  The messages on the console are
    left out. *)
Definition loadFromFile (env : Environment) (config : value)
    (configPath : string) : outcome (value * bool) :=
  try_catch
    (fileContents ← call (readFileSync env configPath);
     let extension := toLowerCase (extname env configPath) in
     loadedConfig ← parse env extension fileContents;
     Returns (deepMerge config loadedConfig, true))
    (λ error, Returns (config, false)).

(** [get(key)]. *)
Fixpoint walk (keys : list string) (result : value) : outcome value :=
  match keys with
  | [] => Returns result
  | k :: keys =>
      next ← getProp result k;
      match next with
      | VUndefined => Returns VUndefined
      | _ => walk keys next
      end
  end.

Definition get (config : value) (key : string) : outcome value :=
  walk (split key) config.

(** [set(key, value)]: the loop over all keys but the last, then the
    assignment at the last key; the result is [current] after the
    updates in place. *)
Fixpoint assign (keys : list string) (x : value) (current : value)
  : outcome value :=
  match keys with
  | [] => putProp current "undefined" x
  | k :: rest =>
      match rest with
      | [] => putProp current k x
      | _ :: _ =>
          match current with
          | VArr _ => Unmodelled
          | _ =>
              child ← getProp current k;
              current ←
                (if truthy child then Returns current
                 else putProp current k (VObj ∅));
              child ← getProp current k;
              child ← assign rest x child;
              match current with
              | VObj properties =>
                  Returns (VObj (<[k := child]> properties))
              | _ => Returns current
              end
          end
      end
  end.

Definition set (config : value) (key : string) (x : value)
  : outcome value :=
  assign (split key) x config.

(** The paths [set] can follow: every key but the last is an own key
    that holds a mapping from which the rest of the path can be followed,
    or an own key that holds a falsy value, or a key that is absent and
    is not a name inherited from [Object.prototype], the rest of the path
    being one that can be followed from a fresh mapping; the last key is
    not [__proto__], unless that is an own key. *)
Fixpoint passable (keys : list string) (current : value) : bool :=
  match keys, current with
  | [], _ => false
  | [k], VObj properties =>
      match properties !! k with
      | Some _ => true
      | None => negb (String.eqb k "__proto__")
      end
  | k :: rest, VObj properties =>
      match properties !! k with
      | Some child =>
          if truthy child then passable rest child
          else passable rest (VObj ∅)
      | None => negb (inherited k) && passable rest (VObj ∅)
      end
  | _, _ => false
  end.

(** No key of the document, at any depth, is a name inherited from
    [Object.prototype]. *)
Fixpoint ownNames (v : value) : bool :=
  match v with
  | VObj properties =>
      map_fold
        (λ key child rest, negb (inherited key) && ownNames child && rest)
        true properties
  | VArr elements => forallb ownNames elements
  | _ => true
  end.

(** The path leaves the override in a mapping that omits its next key,
    having gone down so far through mappings that the base has too. *)
Fixpoint omitted (keys : list string) (base override : value) : bool :=
  match keys, base, override with
  | k :: rest, VObj baseProperties, VObj overrideProperties =>
      match overrideProperties !! k with
      | None => true
      | Some overrideChild =>
          match baseProperties !! k with
          | Some baseChild => omitted rest baseChild overrideChild
          | None => false
          end
      end
  | _, _, _ => false
  end.

Definition isScalar (v : value) : bool :=
  match v with
  | VArr _ | VObj _ => false
  | _ => true
  end.

(** The document of the constructor; [apiKey] is
    [process.env.OPENAI_API_KEY]. *)
Definition strings (l : list string) : value := VArr (VStr <$> l).

Definition languageEntry (priority : Q) (useCase : list string) : value :=
  VObj {[ "priority" := VNum priority; "useCase" := strings useCase ]}.

Definition defaults (apiKey : value) : value :=
  VObj {[
    "llm" := VObj {[ "provider" := VStr "openai";
                     "model" := VStr "gpt-4";
                     "apiKey" := apiKey ]};
    "languages" := VObj {[
      "javascript" := languageEntry 1 ["web"; "api"];
      "python" := languageEntry 2 ["data"; "ml"];
      "go" := languageEntry 3 ["performance"; "concurrency"];
      "rust" := languageEntry 4 ["system"; "performance"] ]};
    "paths" := VObj {[ "services" := VStr "./services";
                       "templates" := VStr "./templates" ]} ]}.

(** The other copy of the class in the repository differs in
    [loadFromFile] alone, which spreads the loaded document over the
    current one: [{ ...this.config, ...JSON.parse(fileContents) }]. *)
Module Spread.

Definition loadFromFile (env : Environment) (config : value)
    (configPath : string) : outcome (value * bool) :=
  try_catch
    (fileContents ← call (readFileSync env configPath);
     let extension := toLowerCase (extname env configPath) in
     loadedConfig ← parse env extension fileContents;
     Returns
       (VObj (ownProperties loadedConfig ∪ ownProperties config), true))
    (λ error, Returns (config, false)).

End Spread.

End Config.

(** ** [deepMerge] on the store of objects

    The same method with objects held in a store and passed by reference,
    to follow what the call writes: [output] is allocated first, and every
    assignment [output[key] = ...] updates that object in the store.  The
    recursion is bounded by [fuel].  As in [Config.deepMerge],
    [key in target] is the lookup of an own property and the assignment
    an insertion, which is so for the keys that are not names inherited
    from [Object.prototype]. *)

Module Store.

Definition loc := positive.

Inductive value :=
  | Undefined
  | Null
  | Bool (b : bool)
  | Num (q : Q)
  | Str (s : string)
  | Ref (l : loc).

Inductive object :=
  | Obj (properties : gmap string value)
  | Arr (elements : list value).

Definition isObject (σ : gmap loc object) (item : value) : bool :=
  match item with
  | Ref l =>
      match σ !! l with
      | Some (Obj _) => true
      | _ => false
      end
  | _ => false
  end.

Definition characters (s : string) : list value :=
  (λ c, Str (String c EmptyString)) <$> String.list_ascii_of_string s.

Definition ownProperties (σ : gmap loc object) (v : value)
  : gmap string value :=
  match v with
  | Ref l =>
      match σ !! l with
      | Some (Obj properties) => properties
      | Some (Arr elements) => Config.indexed elements
      | None => ∅
      end
  | Str s => Config.indexed (characters s)
  | _ => ∅
  end.

(** [output[key] = x] on the object at [output]. *)
Definition write (output : loc) (key : string) (x : value)
    (σ : gmap loc object) : gmap loc object :=
  match σ !! output with
  | Some (Obj properties) => <[output := Obj (<[key := x]> properties)]> σ
  | _ => σ
  end.

Fixpoint forEach (f : string → gmap loc object → option (gmap loc object))
    (keys : list string) (σ : gmap loc object)
  : option (gmap loc object) :=
  match keys with
  | [] => Some σ
  | key :: keys => σ ← f key σ; forEach f keys σ
  end.

(** The body of the callback of [forEach], with the recursive call as
    [recurse]: [source[key]], [key in target] and [target[key]] are read
    from the store as it is when the key is visited. *)
Definition mergeKey
    (recurse : value → value → gmap loc object
               → option (value * gmap loc object))
    (target source : value) (output : loc) (key : string)
    (σ : gmap loc object) : option (gmap loc object) :=
  let sourceValue := default Undefined (ownProperties σ source !! key) in
  if isObject σ sourceValue then
    match ownProperties σ target !! key with
    | None => Some (write output key sourceValue σ)
    | Some targetValue =>
        '(merged, σ) ← recurse targetValue sourceValue σ;
        Some (write output key merged σ)
    end
  else Some (write output key sourceValue σ).

(** [Object.keys(source)] is taken in the order of the map: the order of
    the visits only changes which locations the nested results get. *)
Fixpoint deepMerge (fuel : nat) (target source : value)
    (σ : gmap loc object) : option (value * gmap loc object) :=
  match fuel with
  | O => None
  | S fuel =>
      let output := fresh (dom σ) in
      let σ := <[output := Obj (ownProperties σ target)]> σ in
      if isObject σ target && isObject σ source then
        σ ← forEach (mergeKey (deepMerge fuel) target source output)
              (map_to_list (ownProperties σ source)).*1 σ;
        Some (Ref output, σ)
      else Some (Ref output, σ)
  end.

(** A value of the store stands for a document: scalars for themselves,
    a reference for the object or the array it leads to. *)
Inductive represents (σ : gmap loc object) : value → Config.value → Prop :=
  | represents_undefined : represents σ Undefined Config.VUndefined
  | represents_null : represents σ Null Config.VNull
  | represents_bool b : represents σ (Bool b) (Config.VBool b)
  | represents_num q : represents σ (Num q) (Config.VNum q)
  | represents_str s : represents σ (Str s) (Config.VStr s)
  | represents_obj l stored properties :
      σ !! l = Some (Obj stored) →
      dom stored = dom properties →
      (∀ key v x,
         stored !! key = Some v → properties !! key = Some x →
         represents σ v x) →
      represents σ (Ref l) (Config.VObj properties)
  | represents_arr l stored elements :
      σ !! l = Some (Arr stored) →
      length stored = length elements →
      (∀ i v x,
         stored !! i = Some v → elements !! i = Some x →
         represents σ v x) →
      represents σ (Ref l) (Config.VArr elements).

(** The properties [stored] stand for the properties of a document. *)
Definition similar (σ : gmap loc object) (stored : gmap string value)
    (properties : gmap string Config.value) : Prop :=
  dom stored = dom properties
  ∧ ∀ key v x,
      stored !! key = Some v → properties !! key = Some x →
      represents σ v x.

(** The store [σ'] and its part [σ0'] extend the store [σ] and its part
    [σ0]: nothing held before has changed, and what the part gained lies
    outside [σ]. *)
Definition extends (σ0 σ σ0' σ' : gmap loc object) : Prop :=
  σ ⊆ σ' ∧ σ0 ⊆ σ0' ∧ σ0' ⊆ σ'
  ∧ ∀ l, is_Some (σ !! l) → σ0' !! l = σ0 !! l.

(** The value [deepMerge] leaves at a key of the override. *)
Definition mergedAt (target source : gmap string Config.value)
    (key : string) : Config.value :=
  match source !! key with
  | Some sourceValue =>
      if Config.isObject sourceValue then
        match target !! key with
        | None => sourceValue
        | Some targetValue => Config.deepMerge targetValue sourceValue
        end
      else sourceValue
  | None => Config.VUndefined
  end.

End Store.

(** ** The command [languages] of the command line ([src/cli/index.js]) *)

Module Cli.

(** [useCases.sort((a, b) => b.score - a.score)]: the comparator puts
    [a] before [b] when [a] scores more.  [Array.prototype.sort] is
    stable, which fixes its result for this comparator: that of the stable
    insertion sort. *)
Fixpoint insertByScore (a : Profile.UseCase) (sorted : list Profile.UseCase)
  : list Profile.UseCase :=
  match sorted with
  | [] => [a]
  | b :: rest =>
      if Qlt_bool (Profile.uc_score a) (Profile.uc_score b)
      then b :: insertByScore a rest
      else a :: sorted
  end.

Definition sortByScore (useCases : list Profile.UseCase)
  : list Profile.UseCase :=
  foldr insertByScore [] useCases.

(** The order of the sorted use cases: no score goes up. *)
Definition atLeast (a b : Profile.UseCase) : Prop :=
  Profile.uc_score b <= Profile.uc_score a.

(** The use cases of one score, in the order of the list. *)
Definition scoring (s : Q) (useCases : list Profile.UseCase)
  : list Profile.UseCase :=
  List.filter (λ uc, Qeq_bool (Profile.uc_score uc) s) useCases.

(** [name.toUpperCase()] on a name of ASCII characters; the mapping of
    the other letters is left out. *)
Definition toUpperCase (s : string) : option string :=
  if forallb (λ c, (nat_of_ascii c <? 128)%nat)
       (String.list_ascii_of_string s)
  then
    Some (String.string_of_list_ascii
            ((λ c, let n := nat_of_ascii c in
                   if (97 <=? n)%nat && (n <=? 122)%nat
                   then ascii_of_nat (n - 32) else c)
             <$> String.list_ascii_of_string s))
  else None.

(** [Object.entries(profile.characteristics)]. *)
Definition characteristicsEntries (c : Profile.Characteristics)
  : list (string * Q) :=
  [("performance"%string, Profile.performance c);
   ("memory"%string, Profile.memory c);
   ("startupTime"%string, Profile.startupTime c);
   ("ecosystem"%string, Profile.ecosystem c);
   ("concurrency"%string, Profile.concurrency c)].

(** What the command prints for one profile: its name in upper case, its
    characteristics, and its first three use cases after the sort. *)
Record Listing := {
  title : option string;
  ratings : list (string * Q);
  topUseCases : list Profile.UseCase
}.

(** The profile after the command: [sort] works in place, so the use
    cases of the registry's profile stay sorted. *)
Definition sorted (profile : Profile.LanguageProfile)
  : Profile.LanguageProfile :=
  {| Profile.name := Profile.name profile;
     Profile.characteristics := Profile.characteristics profile;
     Profile.useCases := sortByScore (Profile.useCases profile);
     Profile.libraries := Profile.libraries profile |}.

(** The action of [languages] on the entries of the registry, as
    [Object.entries] gives them: the listings printed, and the entries as
    the command leaves them. *)
Definition languages (profiles : list (string * Profile.LanguageProfile))
  : list Listing * list (string * Profile.LanguageProfile) :=
  ((λ entry,
      {| title := toUpperCase entry.1;
         ratings := characteristicsEntries (Profile.characteristics entry.2);
         topUseCases := take 3 (sortByScore (Profile.useCases entry.2)) |})
   <$> profiles,
   (λ entry, (entry.1, sorted entry.2)) <$> profiles).

End Cli.

(** ** Documents and their files ([saveToFile]) *)

Module Save.
Import Config.

(** No [null] is reached from the document through properties and
    elements. *)
Fixpoint nullFree (v : value) : bool :=
  match v with
  | VNull => false
  | VArr elements => forallb nullFree elements
  | VObj properties =>
      map_fold (λ _ child b, nullFree child && b) true properties
  | _ => true
  end.

(** The document [part] says nothing that [whole] does not say: each of
    its keys is a key of [whole], with the same value, or, for a mapping,
    with a mapping of which it is a part in turn. *)
Fixpoint within (part whole : value) {struct part} : Prop :=
  match part, whole with
  | VObj partProperties, VObj wholeProperties =>
      map_fold
        (λ key child rest,
           match wholeProperties !! key with
           | Some counterpart =>
               (if isObject child then within child counterpart
                else child = counterpart)
               ∧ rest
           | None => False
           end)
        True partProperties
  | _, _ => False
  end.

(** What [saveToFile] calls outside the repository; each call returns or
    throws. *)
Record Output := {
  extname : string → string;
  JSON_stringify : value → error + string;
  yaml_stringify : value → error + string;
  writeFileSync : string → string → error + unit
}.

(** The choice of the serializer in [saveToFile]. *)
Definition stringify (out : Output) (extension : string) (config : value)
  : outcome string :=
  if String.eqb extension ".json" then call (JSON_stringify out config)
  else if bool_decide (extension ∈ [".yml"; ".yaml"]%string)
  then call (yaml_stringify out config)
  else Throws (UnsupportedFormat extension).

(** [saveToFile(configPath)] on the document [this.config]: the boolean
    returned, and the calls of [fs.writeFileSync] made, each with its path
    and contents.  The messages on the console are left out. *)
Definition saveToFile (out : Output) (config : value) (configPath : string)
  : bool * list (string * string) :=
  let extension := toLowerCase (extname out configPath) in
  match stringify out extension config with
  | Returns fileContents =>
      (match writeFileSync out configPath fileContents with
       | inr _ => true
       | inl _ => false
       end,
       [(configPath, fileContents)])
  | Throws _ | Unmodelled => (false, [])
  end.

(** A file system that keeps what is written to it: the files by path,
    after the writes of a run. *)
Definition written (files : gmap string string)
    (writes : list (string * string)) : gmap string string :=
  foldl (λ files w, <[w.1 := w.2]> files) files writes.

(** The environment of [loadFromFile] on these files, with the parsers
    given. *)
Definition reading (files : gmap string string)
    (extname : string → string)
    (JSON_parse yaml_parse : string → error + value) : Environment :=
  {| Config.readFileSync := λ configPath,
       match files !! configPath with
       | Some fileContents => inr fileContents
       | None => inl SystemError
       end;
     Config.extname := extname;
     Config.JSON_parse := JSON_parse;
     Config.yaml_parse := yaml_parse |}.

End Save.

(** ** The client of the language model ([src/llm/client.js]) *)

Module Client.
Import Config.

(** The object made by [new OpenAI({ apiKey })]; it keeps its key. *)
Record OpenAI := { key : value }.

(** The argument of [chat.completions.create]: the model, the messages
    with role and content, and the temperature. *)
Record Request := {
  request_model : value;
  messages : list (string * string);
  temperature : Q
}.

(** What the client calls outside the repository; each call returns or
    throws (for [create]: the promise is fulfilled or rejected).
    [JSON.parse] is applied to whatever the response holds as content. *)
Record World := {
  OpenAI_new : value → error + OpenAI;
  create : OpenAI → Request → error + value;
  JSON_parse : value → error + value
}.

Record LLMClient := {
  provider : value;
  model : value;
  apiKey : value;
  client : option OpenAI
}.

(** The errors of [getClient]: the two made by the class, and those of
    the library. *)
Inductive thrown :=
  | ApiKeyRequired
  | UnsupportedProvider (provider : value)
  | Raised (e : error).

(** [new LLMClient()], reading the document of the configuration.  The
    warning on the console is left out. *)
Definition constructor (config : value) : outcome LLMClient :=
  provider ← get config "llm.provider";
  model ← get config "llm.model";
  apiKey ← get config "llm.apiKey";
  Returns {| provider := provider; model := model; apiKey := apiKey;
             client := None |}.

(** [initializeClient()]: the [switch] compares with [===]. *)
Definition initializeClient (world : World) (this : LLMClient)
  : thrown + OpenAI :=
  match provider this with
  | VStr name =>
      if String.eqb name "openai" then
        match OpenAI_new world (apiKey this) with
        | inr made => inr made
        | inl e => inl (Raised e)
        end
      else inl (UnsupportedProvider (provider this))
  | _ => inl (UnsupportedProvider (provider this))
  end.

(** [getClient()]: what it returns or throws, and [this] afterwards. *)
Definition getClient (world : World) (this : LLMClient)
  : (thrown + OpenAI) * LLMClient :=
  match client this with
  | Some made => (inr made, this)
  | None =>
      if truthy (apiKey this) then
        match initializeClient world this with
        | inr made =>
            (inr made,
             {| provider := provider this; model := model this;
                apiKey := apiKey this; client := Some made |})
        | inl e => (inl e, this)
        end
      else (inl ApiKeyRequired, this)
  end.

(** [response.choices[0].message.content]. *)
Definition content (response : value) : outcome value :=
  choices ← getProp response "choices";
  first ← getProp choices "0";
  message ← getProp first "message";
  getProp message "content".

(** The body shared by the three methods, which differ in the prompt and
    in the temperature: the value the promise is fulfilled with, [this]
    afterwards, and the requests sent.  The messages on the console are
    left out. *)
Definition ask (world : World) (prompt : string) (temperature : Q)
    (this : LLMClient) : value * LLMClient * list Request :=
  match getClient world this with
  | (inl _, this) => (VNull, this, [])
  | (inr made, this) =>
      let request :=
        {| request_model := model this;
           messages := [("user"%string, prompt)];
           temperature := temperature |} in
      match create world made request with
      | inl _ => (VNull, this, [request])
      | inr response =>
          (match
             try_catch
               (text ← content response; call (JSON_parse world text))
               (λ error, Returns VNull)
           with
           | Returns parsed => parsed
           | Throws _ | Unmodelled => VNull
           end,
           this, [request])
      end
  end.

(** The texts of the prompts, from the arguments of the methods. *)
Record Prompts := {
  analyzePrompt : string → string;
  decomposePrompt : string → string;
  generatePrompt : string → string → string → string
}.

Definition analyzeRequirements (world : World) (prompts : Prompts)
    (description : string) (this : LLMClient)
  : value * LLMClient * list Request :=
  ask world (analyzePrompt prompts description) (2 # 10) this.

Definition decomposeService (world : World) (prompts : Prompts)
    (description : string) (this : LLMClient)
  : value * LLMClient * list Request :=
  ask world (decomposePrompt prompts description) (3 # 10) this.

Definition generateCode (world : World) (prompts : Prompts)
    (language serviceName serviceDescription : string) (this : LLMClient)
  : value * LLMClient * list Request :=
  ask world (generatePrompt prompts language serviceName serviceDescription)
    (2 # 10) this.

End Client.

(** * Properties *)

(** ** Numbers *)

Lemma Qlt_bool_iff (x y : Q) : Qlt_bool x y = true ↔ x < y.
Proof.
  unfold Qlt_bool. rewrite negb_true_iff.
  split.
  - intros H. apply Qnot_le_lt. intros Hle.
    apply Qle_bool_iff in Hle. congruence.
  - intros H. destruct (Qle_bool y x) eqn:E; [|reflexivity].
    apply Qle_bool_iff in E. exfalso. exact (Qlt_not_le _ _ H E).
Qed.

Lemma Qlt_bool_false (x y : Q) : Qlt_bool x y = false ↔ y <= x.
Proof.
  unfold Qlt_bool. rewrite negb_false_iff. apply Qle_bool_iff.
Qed.


(** ** The order of doubles *)

Section Order.
Import Double.

Lemma lt_place x y :
  lt x y = true ↔ ∃ a b, place x = Some a ∧ place y = Some b ∧ before a b.
Proof.
  unfold lt, SpecFloat.SFltb, before.
  destruct x as [[]|[]| |[] m e], y as [[]|[]| |[] m' e']; cbn;
    try (split; [done | intros (a & b & ? & ? & ?); simplify_eq/=; lia]);
    try (split; [intros _; eexists _, _; split_and!; [done|done|cbn; lia]
                | done]);
    change (PosDef.Pos.compare_cont Eq m m') with (Pos.compare m m');
    destruct (Z.compare_spec e e') as [->|?|?];
    try destruct (Pos.compare_spec m m') as [->|?|?]; cbn;
    (split; [first [done | intros _; eexists _, _; split_and!;
                             [done|done|cbn; lia]]
            | first [done | intros (a & b & ? & ? & ?); simplify_eq/=; lia]]).
Qed.

Lemma lt_irrefl x : lt x x = false.
Proof.
  apply not_true_is_false. intros (a & b & Ha & Hb & Hab)%lt_place.
  rewrite Ha in Hb. simplify_eq. unfold before in Hab. lia.
Qed.

Lemma lt_NaN_r x : lt x NaN = false.
Proof. by destruct x as [[]|[]| |[]]. Qed.

Lemma lt_not_NaN x y : lt x y = true → x ≠ NaN ∧ y ≠ NaN.
Proof. intros (a & b & Ha & Hb & _)%lt_place. by split; intros ->. Qed.

Lemma lt_trans x y z : lt x y = true → lt y z = true → lt x z = true.
Proof.
  intros (a & b & Ha & Hb & Hab)%lt_place (b' & c & Hb' & Hc & Hbc)%lt_place.
  rewrite Hb in Hb'. simplify_eq. apply lt_place. exists a, c.
  split_and!; [done|done|]. unfold before in *. lia.
Qed.

(** Above a number that is not below [z], nothing is below [z]. *)
Lemma lt_above x y z : lt x y = true → lt x z = false → lt y z = false.
Proof.
  intros Hxy Hxz. apply not_true_is_false. intros Hyz.
  by rewrite (lt_trans _ _ _ Hxy Hyz) in Hxz.
Qed.

End Order.

Section OrderTotal.
Import Double.

Lemma place_is_Some x : x ≠ NaN → is_Some (place x).
Proof. destruct x as [[]|[]| |[]]; by eauto. Qed.

(** A number that is not [NaN] lies above [x] or below [z] when
    [x < z]. *)
Lemma lt_between x y z :
  lt x z = true → y ≠ NaN → lt x y = true ∨ lt y z = true.
Proof.
  intros (a & c & Ha & Hc & Hac)%lt_place [b Hb]%place_is_Some.
  assert (before a b ∨ before b c) as [H|H] by (unfold before in *; lia).
  - left. apply lt_place. by exists a, b.
  - right. apply lt_place. by exists b, c.
Qed.

End OrderTotal.

(** ** The scorer and the ranking on doubles *)

Section Entries.
Import Ranking.

Lemma insertIndexed_Permutation e sorted :
  insertIndexed e sorted ≡ₚ e :: sorted.
Proof.
  induction sorted as [|f rest IH]; simpl; [done|].
  destruct (_ <? _)%N; [done|]. rewrite IH. apply Permutation_swap.
Qed.

Lemma entries_Permutation registry : entries registry ≡ₚ registry.
Proof.
  unfold entries.
  assert (∀ l, foldr insertIndexed [] l ≡ₚ l) as ->.
  { induction l as [|e l IH]; simpl; [done|].
    by rewrite insertIndexed_Permutation, IH. }
  induction registry as [|e registry IH]; simpl; [done|].
  unfold named at 1. destruct (arrayIndex e.1); simpl.
  - by rewrite IH.
  - rewrite <- Permutation_middle. by rewrite IH.
Qed.

(** Without names that are array indices, the order is that of
    registration. *)
Lemma entries_named registry :
  Forall (λ e, arrayIndex e.1 = None) registry → entries registry = registry.
Proof.
  intros Hall. unfold entries.
  assert (omap (λ e, (λ i, (i, e)) <$> arrayIndex e.1) registry = []) as ->.
  { induction Hall as [|e registry He _ IH]; simpl; [done|].
    by rewrite He. }
  simpl. induction Hall as [|e registry He _ IH]; simpl; [done|].
  unfold named at 1. rewrite He. by rewrite IH.
Qed.

Lemma entries_snoc registry e :
  arrayIndex e.1 = None → entries (registry ++ [e]) = entries registry ++ [e].
Proof.
  intros He. unfold entries. rewrite omap_app, List.filter_app. simpl.
  unfold named at 2. rewrite He. simpl. by rewrite app_nil_r, app_assoc.
Qed.

Lemma lookupProfile_elem n p registry :
  NoDup registry.*1 → (n, p) ∈ registry → lookupProfile n registry = Some p.
Proof.
  induction registry as [|[n' p'] rest IH]; simpl; intros Hnd Hin.
  - by apply elem_of_nil in Hin.
  - apply NoDup_cons in Hnd as [Hn' Hnd].
    destruct (String.eqb_spec n' n) as [->|Hne].
    + apply elem_of_cons in Hin as [[= ->]|Hin]; [done|].
      destruct Hn'. apply list_elem_of_fmap. by exists (n, p).
    + apply elem_of_cons in Hin as [[= -> ->]|Hin]; [done | by apply IH].
Qed.

Lemma lookupProfile_app n registry more :
  n ∈ registry.*1 →
  lookupProfile n (registry ++ more) = lookupProfile n registry.
Proof.
  induction registry as [|[n' p'] rest IH]; simpl; intros Hn.
  - by apply elem_of_nil in Hn.
  - destruct (String.eqb_spec n' n) as [->|Hne]; [done|].
    apply elem_of_cons in Hn as [?|Hn]; [congruence | by apply IH].
Qed.

End Entries.

Section Visits.
Import Double Ranking.
Variable requirements : Requirements.

(** Entries that do not score above the running best leave it alone. *)
Lemma fold_visit_keep l best :
  Forall (λ e, lt best.1 (matches e.2 requirements) = false) l →
  fold_left (visit requirements) l best = best.
Proof.
  induction 1 as [|e rest He _ IH]; simpl; [done|].
  unfold visit at 2. by rewrite He.
Qed.

(** Below a bound that every visited score is under, unless it is [NaN],
    so is the running best. *)
Lemma fold_visit_below l best bound :
  lt best.1 bound = true →
  Forall (λ e, lt (matches e.2 requirements) bound = true
               ∨ matches e.2 requirements = NaN) l →
  lt (fold_left (visit requirements) l best).1 bound = true.
Proof.
  intros Hb Hall. revert best Hb.
  induction Hall as [|e rest He _ IH]; intros best Hb; simpl; [done|].
  apply IH. unfold visit.
  destruct (lt best.1 (matches e.2 requirements)) eqn:E; cbn [fst]; [|done].
  destruct He as [He|He]; [done|]. by rewrite He, lt_NaN_r in E.
Qed.

Lemma fold_visit_first before e after best :
  lt best.1 (matches e.2 requirements) = true →
  Forall (λ e', lt (matches e'.2 requirements) (matches e.2 requirements)
                = true
                ∨ matches e'.2 requirements = NaN) before →
  Forall (λ e', lt (matches e.2 requirements) (matches e'.2 requirements)
                = false) after →
  fold_left (visit requirements) (before ++ e :: after) best
  = (matches e.2 requirements, Some e.1).
Proof.
  intros Hbest Hbefore Hafter. rewrite fold_left_app. simpl.
  pose proof (fold_visit_below before best _ Hbest Hbefore) as Hbelow.
  unfold visit at 2. rewrite Hbelow. by apply fold_visit_keep.
Qed.

(** The loop either leaves the running best as it found it, no profile
    scoring above it, or ends on an entry that does. *)
Lemma fold_visit_cases l best :
  (Forall (λ e, lt best.1 (matches e.2 requirements) = false) l
   ∧ fold_left (visit requirements) l best = best)
  ∨ (∃ e, e ∈ l
          ∧ fold_left (visit requirements) l best
            = (matches e.2 requirements, Some e.1)
          ∧ lt best.1 (matches e.2 requirements) = true).
Proof.
  revert best. induction l as [|e rest IH]; intros best; simpl.
  - left. by split.
  - unfold visit at 2 4.
    destruct (lt best.1 (matches e.2 requirements)) eqn:E.
    + right.
      destruct (IH (matches e.2 requirements, Some e.1))
        as [[_ ->]|(e' & ? & -> & Hlt)].
      * exists e. split; [left|done].
      * exists e'. split; [by right|]. split; [done|].
        simpl in Hlt. by eapply lt_trans.
    + destruct (IH best) as [[Hall ->]|(e' & ? & -> & Hlt)].
      * left. split; [by constructor | done].
      * right. exists e'. split; [by right | done].
Qed.

(** The running best never goes down, is never [NaN] when it was not,
    and ends with no score visited above it. *)
Lemma fold_visit_upper l best :
  best.1 ≠ NaN →
  (fold_left (visit requirements) l best).1 ≠ NaN
  ∧ lt (fold_left (visit requirements) l best).1 best.1 = false
  ∧ Forall (λ e, lt (fold_left (visit requirements) l best).1
                    (matches e.2 requirements) = false) l.
Proof.
  revert best. induction l as [|e rest IH]; intros best Hbest; simpl.
  - split_and!; [done | apply lt_irrefl | constructor].
  - unfold visit at 2 4 6.
    destruct (lt best.1 (matches e.2 requirements)) eqn:E.
    + destruct (IH (matches e.2 requirements, Some e.1))
        as (Hnan & Hup & Hall); [by apply lt_not_NaN in E as [_ ?]|].
      simpl in *. split_and!; [done| |by constructor].
      apply not_true_is_false. intros Hlt.
      by rewrite (lt_trans _ _ _ Hlt E) in Hup.
    + destruct (IH best Hbest) as (Hnan & Hup & Hall).
      split_and!; [done|done|]. constructor; [|done].
      apply not_true_is_false. intros Hlt.
      destruct (lt_between _ best.1 _ Hlt Hbest) as [H|H]; congruence.
Qed.

End Visits.

Section Stated.
Import Double Ranking.

Lemma matches_as_stated this requirements :
  req_useCase requirements ≠ Some ""%string →
  (∀ w, req_useCaseWeight requirements = Some w → truthy w = true) →
  matches this requirements = matchesStated this requirements.
Proof.
  intros Hname Hweight. unfold matches, matchesStated.
  assert (∀ acc,
            accumulateUseCase this requirements acc
            = accumulateUseCaseStated this requirements acc) as ->; [|done].
  intros acc. unfold accumulateUseCase, accumulateUseCaseStated.
  destruct (req_useCase requirements) as [u|]; [|done]. cbn.
  destruct (String.eqb_spec u "") as [->|_]; [done|]. cbn.
  destruct (find _ _); [|done].
  destruct (req_useCaseWeight requirements) as [w|]; [|done]. cbn.
  by rewrite (Hweight w eq_refl).
Qed.

End Stated.

(** Claim C1 fails on the code.  [matches] reads
    [requirements.useCaseWeight || 1], so a weight of [0] counts as [1]:
    on the query [{ useCase: "web", useCaseWeight: 0 }] the profile of
    javascript scores 9, where the average as stated has the total weight
    0 and is 0.  The score is the stated one whenever the weight of the
    use case is absent or truthy and the use case is not named by the
    empty string, which [if (requirements.useCase)] skips in the same
    way. *)
Theorem matches_useCaseWeight_zero :
  let requirements :=
    {| Ranking.req_performance := None; Ranking.req_memory := None;
       Ranking.req_startupTime := None; Ranking.req_ecosystem := None;
       Ranking.req_concurrency := None;
       Ranking.req_useCase := Some "web"%string;
       Ranking.req_useCaseWeight := Some (Double.ofZ 0) |} in
  Ranking.matches Ranking.javascriptProfile requirements = Double.ofZ 9
  ∧ Ranking.matchesStated Ranking.javascriptProfile requirements
    = Double.ofZ 0
  ∧ ∀ this requirements,
      Ranking.req_useCase requirements ≠ Some ""%string →
      (∀ w, Ranking.req_useCaseWeight requirements = Some w →
            Double.truthy w = true) →
      Ranking.matches this requirements
      = Ranking.matchesStated this requirements.
Proof.
  split_and!; [by vm_compute | by vm_compute |].
  intros this requirements. apply matches_as_stated.
Qed.

(** Claim C2, as amended.  [findBestLanguageForRequirements] visits the
    profiles in the order of [Object.entries], which is the order of
    registration when no name is an array index, and returns the first
    one attaining the maximal score, if that score is above -1: when
    every earlier profile scores strictly less than [p] or scores [NaN],
    and no later profile scores more, the result is [p] under its name,
    with its score (the profile itself for a name that is not empty). *)
Theorem findBest_first_maximal
    (registry : list (string * Ranking.LanguageProfile))
    (requirements : Ranking.Requirements)
    (before : list (string * Ranking.LanguageProfile))
    (n : string) (p : Ranking.LanguageProfile)
    (after : list (string * Ranking.LanguageProfile)) :
  NoDup registry.*1 →
  Ranking.entries registry = before ++ (n, p) :: after →
  Forall (λ e, Double.lt (Ranking.matches e.2 requirements)
                 (Ranking.matches p requirements) = true
               ∨ Ranking.matches e.2 requirements = Double.NaN) before →
  Forall (λ e, Double.lt (Ranking.matches p requirements)
                 (Ranking.matches e.2 requirements) = false) after →
  Double.lt (Double.ofZ (-1)) (Ranking.matches p requirements) = true →
  let result :=
    Ranking.findBestLanguageForRequirements registry requirements in
  Ranking.language result = Some n
  ∧ Ranking.score result = Ranking.matches p requirements
  ∧ (n ≠ ""%string → Ranking.profile result = Some p)
  ∧ (Forall (λ e, Ranking.arrayIndex e.1 = None) registry →
     Ranking.entries registry = registry).
Proof.
  intros Hnd Hentries Hbefore Hafter Hp. cbn zeta.
  unfold Ranking.findBestLanguageForRequirements. rewrite Hentries.
  rewrite (fold_visit_first requirements before (n, p) after
             (Double.ofZ (-1), None) Hp Hbefore Hafter).
  cbn [Ranking.language Ranking.score Ranking.profile fst snd].
  split_and!; [done|done| |].
  2: { intros Hnamed. rewrite <- Hentries. by apply entries_named. }
  intros Hn. unfold Ranking.truthy_string.
  destruct (String.eqb_spec n "") as [->|_]; [done|]. cbn.
  apply lookupProfile_elem; [done|].
  rewrite <- (entries_Permutation registry), Hentries.
  apply elem_of_app. right. left.
Qed.

(** The builtin registry on the query
    [{ ecosystem: { weight: 0.6 }, concurrency: { weight: 0.3 } }]: go
    scores 8.000000000000002, above the 8 of javascript. *)
Lemma findBest_first_maximal_witness :
  let requirements :=
    {| Ranking.req_performance := None; Ranking.req_memory := None;
       Ranking.req_startupTime := None;
       Ranking.req_ecosystem :=
         Some {| Ranking.weight := Double.decimal 6 10 |};
       Ranking.req_concurrency :=
         Some {| Ranking.weight := Double.decimal 3 10 |};
       Ranking.req_useCase := None; Ranking.req_useCaseWeight := None |} in
  let result :=
    Ranking.findBestLanguageForRequirements Ranking.profiles requirements in
  Ranking.language result = Some "go"%string
  ∧ Ranking.score result = Ranking.matches Ranking.goProfile requirements
  ∧ Ranking.profile result = Some Ranking.goProfile.
Proof.
  intros requirements.
  destruct (findBest_first_maximal Ranking.profiles requirements
              [("javascript"%string, Ranking.javascriptProfile);
               ("python"%string, Ranking.pythonProfile)]
              "go" Ranking.goProfile
              [("rust"%string, Ranking.rustProfile)])
    as (Hlanguage & Hscore & Hprofile & _).
  - apply (bool_decide_unpack _). by vm_compute.
  - by vm_compute.
  - repeat (apply Forall_cons_2; [left; by vm_compute|]). apply Forall_nil_2.
  - repeat (apply Forall_cons_2; [by vm_compute|]). apply Forall_nil_2.
  - by vm_compute.
  - split_and!; [exact Hlanguage | exact Hscore | by apply Hprofile].
Defined.

(** Claim C2 as stated fails twice.  A profile registered later under a
    name that is an array index is visited first: with go registered as
    [go] and then once more as [7], the two tie and the result is [7],
    not the earliest registered.  And a single profile that scores -2,
    the maximal score of its registry, is not returned. *)
Lemma findBest_not_first_registered :
  let performance :=
    {| Ranking.req_performance := Some {| Ranking.weight := Double.ofZ 1 |};
       Ranking.req_memory := None; Ranking.req_startupTime := None;
       Ranking.req_ecosystem := None; Ranking.req_concurrency := None;
       Ranking.req_useCase := None; Ranking.req_useCaseWeight := None |} in
  Ranking.language
    (Ranking.findBestLanguageForRequirements
       [("go"%string, Ranking.goProfile); ("7"%string, Ranking.goProfile)]
       performance)
  = Some "7"%string
  ∧ Ranking.language
      (Ranking.findBestLanguageForRequirements
         [("slow"%string,
           Ranking.new "slow" (Ranking.init (-2) (-2) (-2) (-2) (-2)))]
         performance)
    = None.
Proof. split; by vm_compute. Qed.

(** Claim C8, as amended.  [findBestLanguageForRequirements] returns no
    language exactly when no profile of the registry scores above -1
    (each scores at most -1, or [NaN]); the score is then the sentinel -1
    and the profile is [null]; this is so for the empty registry.  When a
    language is returned, it is the name of a profile of the registry that
    scores above -1, returned with its score, and with the profile itself
    when the name is not empty. *)
Theorem findBest_null_result
    (registry : list (string * Ranking.LanguageProfile))
    (requirements : Ranking.Requirements) :
  let result :=
    Ranking.findBestLanguageForRequirements registry requirements in
  (Ranking.language result = None
   ↔ Forall (λ e, Double.lt (Double.ofZ (-1))
                    (Ranking.matches e.2 requirements) = false) registry)
  ∧ (Ranking.language result = None →
     Ranking.score result = Double.ofZ (-1)
     ∧ Ranking.profile result = None)
  ∧ (registry = [] → Ranking.language result = None)
  ∧ (∀ n, Ranking.language result = Some n →
          ∃ p, (n, p) ∈ registry
               ∧ Ranking.score result = Ranking.matches p requirements
               ∧ Double.lt (Double.ofZ (-1)) (Ranking.score result) = true
               ∧ (NoDup registry.*1 → n ≠ ""%string →
                  Ranking.profile result = Some p)).
Proof.
  cbn zeta. unfold Ranking.findBestLanguageForRequirements.
  destruct (fold_visit_cases requirements (Ranking.entries registry)
              (Double.ofZ (-1), None))
    as [[Hall ->]|([n' p'] & He & -> & Hlt)];
    cbn [Ranking.language Ranking.score Ranking.profile fst snd] in *.
  - split_and!; [|done| |done].
    + split; [|done]. intros _. by rewrite <- (entries_Permutation registry).
    + done.
  - assert ((n', p') ∈ registry) as Hin
      by by rewrite <- (entries_Permutation registry).
    split_and!; [|done| |].
    + split; [done|]. intros Hall. rewrite Forall_forall in Hall.
      specialize (Hall _ Hin). cbn [snd] in Hall. congruence.
    + intros ->. by apply elem_of_nil in Hin.
    + intros n [= <-]. exists p'. split_and!; [done|done|done|].
      intros Hnd Hn. unfold Ranking.truthy_string.
      destruct (String.eqb_spec n' "") as [->|_]; [done|]. cbn.
      by apply lookupProfile_elem.
Qed.

(** Claim C8 as stated fails.  A registry of one profile whose ratings
    are -2 is not empty and yields the null result; so does the builtin
    registry on weights of 1e308, with which every score is
    [Infinity / Infinity], that is [NaN]; and a profile registered under
    the empty name is returned by name with a [null] profile. *)
Lemma findBest_null_on_nonempty_registry :
  let query w :=
    {| Ranking.req_performance := Some {| Ranking.weight := w |};
       Ranking.req_memory := Some {| Ranking.weight := w |};
       Ranking.req_startupTime := None;
       Ranking.req_ecosystem := None; Ranking.req_concurrency := None;
       Ranking.req_useCase := None; Ranking.req_useCaseWeight := None |} in
  let slow := Ranking.new "slow" (Ranking.init (-2) (-2) (-2) (-2) (-2)) in
  Ranking.findBestLanguageForRequirements [("slow"%string, slow)]
    (query (Double.ofZ 1))
  = {| Ranking.language := None; Ranking.score := Double.ofZ (-1);
       Ranking.profile := None |}
  ∧ Ranking.findBestLanguageForRequirements Ranking.profiles
      (query (Double.ofZ (10 ^ 308)))
    = {| Ranking.language := None; Ranking.score := Double.ofZ (-1);
         Ranking.profile := None |}
  ∧ Ranking.findBestLanguageForRequirements
      [(""%string, Ranking.goProfile)] (query (Double.ofZ 1))
    = {| Ranking.language := Some ""%string; Ranking.score := Double.ofZ 8;
         Ranking.profile := None |}.
Proof. split_and!; by vm_compute. Qed.

(** ** The ranking on rationals *)

Section RationalRanking.
Import Profile.
Variable requirements : Requirements.


End RationalRanking.

(** Claim C9.  The four builtin profiles carry the tabulated ratings and
    use-case scores, and on the query
    [{ performance: { weight: 1 }, concurrency: { weight: 1 },
       useCase: "system" }]
    [findBestLanguageForRequirements] returns the language ["rust"], with
    the profile of rust. *)
Theorem findBest_builtin_rust :
  let requirements :=
    {| Profile.req_performance := Some {| Profile.weight := 1 |};
       Profile.req_memory := None; Profile.req_startupTime := None;
       Profile.req_ecosystem := None;
       Profile.req_concurrency := Some {| Profile.weight := 1 |};
       Profile.req_useCase := Some "system"%string;
       Profile.req_useCaseWeight := None |} in
  Profile.summary <$> Profile.profiles = Profile.tabulated
  ∧ Profile.language
      (Profile.findBestLanguageForRequirements Profile.profiles requirements)
    = Some "rust"%string
  ∧ Profile.profile
      (Profile.findBestLanguageForRequirements Profile.profiles requirements)
    = Some Profile.rustProfile.
Proof. by vm_compute. Qed.

(** ** The deep merge *)

Section DeepMerge.
Import Config.

Lemma deepMerge_objects (target source : gmap string value) :
  deepMerge (VObj target) (VObj source)
  = VObj
      (map_fold
         (λ key sourceValue output,
            if isObject sourceValue then
              match target !! key with
              | None => <[key := sourceValue]> output
              | Some targetValue =>
                  <[key := deepMerge targetValue sourceValue]> output
              end
            else <[key := sourceValue]> output)
         target source).
Proof. reflexivity. Qed.

Lemma deepMerge_not_object target source :
  isObject target && isObject source = false →
  deepMerge target source = VObj (ownProperties target).
Proof. by destruct target, source. Qed.

(** The loop over the keys of [source], key by key, from any initial
    [output]. *)
Lemma merge_loop_lookup (target output source : gmap string value) key :
  map_fold
    (λ key sourceValue output,
       if isObject sourceValue then
         match target !! key with
         | None => <[key := sourceValue]> output
         | Some targetValue =>
             <[key := deepMerge targetValue sourceValue]> output
         end
       else <[key := sourceValue]> output)
    output source !! key
  = match source !! key with
    | None => output !! key
    | Some sourceValue =>
        Some
          (if isObject sourceValue then
             match target !! key with
             | None => sourceValue
             | Some targetValue => deepMerge targetValue sourceValue
             end
           else sourceValue)
    end.
Proof.
  apply (map_fold_weak_ind
           (λ result (visited : gmap string value),
              result !! key
              = match visited !! key with
                | None => output !! key
                | Some sourceValue =>
                    Some
                      (if isObject sourceValue then
                         match target !! key with
                         | None => sourceValue
                         | Some targetValue =>
                             deepMerge targetValue sourceValue
                         end
                       else sourceValue)
                end)).
  - by rewrite lookup_empty.
  - intros k v visited result Hk IH.
    destruct (decide (k = key)) as [->|Hne].
    + rewrite lookup_insert_eq.
      destruct (isObject v); [destruct (target !! key)|];
        by rewrite lookup_insert_eq.
    + rewrite lookup_insert_ne by done. rewrite <- IH.
      destruct (isObject v); [destruct (target !! k)|];
        by rewrite lookup_insert_ne.
Qed.

Lemma deepMerge_lookup (target source : gmap string value) key :
  ownProperties (deepMerge (VObj target) (VObj source)) !! key
  = match source !! key with
    | None => target !! key
    | Some sourceValue =>
        Some
          (if isObject sourceValue then
             match target !! key with
             | None => sourceValue
             | Some targetValue => deepMerge targetValue sourceValue
             end
           else sourceValue)
    end.
Proof. rewrite deepMerge_objects. apply merge_loop_lookup. Qed.

(** The three cases of a key of the result. *)
Lemma deepMerge_by_key (base override : gmap string value) :
  ∃ merged,
    deepMerge (VObj base) (VObj override) = VObj merged
    ∧ ∀ key,
        (override !! key = None → merged !! key = base !! key)
        ∧ (∀ b o,
             base !! key = Some b → override !! key = Some (VObj o) →
             merged !! key = Some (deepMerge b (VObj o)))
        ∧ (∀ v,
             override !! key = Some v →
             isObject v = false ∨ base !! key = None →
             merged !! key = Some v).
Proof.
  eexists. split; [apply deepMerge_objects|]. intros key.
  pose proof (deepMerge_lookup base override key) as H.
  rewrite deepMerge_objects in H. simpl in H. rewrite H. clear H.
  split; [by intros ->|]. split.
  - by intros b o -> ->.
  - intros v -> [Hv| ->]; [by rewrite Hv | by destruct (isObject v)].
Qed.

End DeepMerge.

(** Claim C10, as amended.  When the override maps a key to a mapping and
    the base maps it to a scalar, [deepMerge] leaves at that key the spread
    of the scalar — the recursive call skips its loop, so nothing of the
    override's mapping is kept: the empty mapping for [undefined], [null],
    a boolean, a number and the empty string, and for any other string the
    mapping of its indices to its characters. *)
Theorem deepMerge_scalar_base
    (base override : gmap string Config.value) (key : string)
    (b : Config.value) (o : gmap string Config.value) :
  base !! key = Some b →
  Config.isScalar b = true →
  override !! key = Some (Config.VObj o) →
  Config.ownProperties
    (Config.deepMerge (Config.VObj base) (Config.VObj override)) !! key
  = Some (Config.VObj (Config.ownProperties b))
  ∧ ((∀ s, b = Config.VStr s → s = ""%string) →
     Config.ownProperties
       (Config.deepMerge (Config.VObj base) (Config.VObj override)) !! key
     = Some (Config.VObj ∅)).
Proof.
  intros Hb Hscalar Ho. rewrite deepMerge_lookup, Ho, Hb.
  cbn [Config.isObject]. rewrite deepMerge_not_object by by destruct b.
  split; [done|]. intros Hs. do 2 f_equal.
  destruct b; try done. by rewrite (Hs s eq_refl).
Qed.

Lemma deepMerge_scalar_base_witness :
  Config.ownProperties
    (Config.deepMerge
       (Config.VObj {[ "model" := Config.VNum 4 ]})
       (Config.VObj {[ "model" := Config.VObj {[ "name" := Config.VStr "m" ]} ]}))
    !! "model"%string
  = Some (Config.VObj ∅).
Proof.
  refine (proj2 (deepMerge_scalar_base
                   {[ "model" := Config.VNum 4 ]}
                   {[ "model" := Config.VObj {[ "name" := Config.VStr "m" ]} ]}
                   "model" (Config.VNum 4) {[ "name" := Config.VStr "m" ]}
                   _ _ _) _).
  - by vm_compute.
  - reflexivity.
  - by vm_compute.
  - intros s Hs. discriminate Hs.
Defined.

(** Claim C10 as stated fails on a base scalar that is a non-empty string:
    [{ ...target }] copies the characters of the string under their
    indices, so [deepMerge({a:"hi"}, {a:{x:1}})] is
    [{a:{0:"h",1:"i"}}] and not [{a:{}}]. *)
Lemma deepMerge_string_base :
  Config.deepMerge
    (Config.VObj {[ "a" := Config.VStr "hi" ]})
    (Config.VObj {[ "a" := Config.VObj {[ "x" := Config.VNum 1 ]} ]})
  = Config.VObj
      {[ "a" := Config.VObj {[ "0" := Config.VStr "h";
                               "1" := Config.VStr "i" ]} ]}
  ∧ Config.ownProperties
      (Config.deepMerge
         (Config.VObj {[ "a" := Config.VStr "hi" ]})
         (Config.VObj {[ "a" := Config.VObj {[ "x" := Config.VNum 1 ]} ]}))
      !! "a"%string
    ≠ Some (Config.VObj ∅).
Proof. split; by vm_compute. Qed.

(** ** Dotted paths *)

Section Paths.
Import Config.

Lemma split_nonempty key : split key ≠ [].
Proof.
  destruct key as [|c rest]; simpl; [done|].
  destruct (Ascii.eqb c "."); [done|]. by destruct (split rest).
Qed.

(** The step of [passable] on a mapping, for a key that is not the
    last. *)
Lemma passable_step k k' rest (properties : gmap string value) :
  passable (k :: k' :: rest) (VObj properties)
  = match properties !! k with
    | Some child =>
        if truthy child then passable (k' :: rest) child
        else passable (k' :: rest) (VObj ∅)
    | None => negb (inherited k) && passable (k' :: rest) (VObj ∅)
    end.
Proof. reflexivity. Qed.

(** The step of [get] on a mapping. *)
Lemma walk_object k keys (properties : gmap string value) :
  walk (k :: keys) (VObj properties)
  = match properties !! k with
    | None => if inherited k then Unmodelled else Returns VUndefined
    | Some VUndefined => Returns VUndefined
    | Some next => walk keys next
    end.
Proof.
  cbn [walk getProp ownProperties absent].
  destruct (properties !! k) as [[]|]; try done. by destruct (inherited k).
Qed.

(** The body of the loop of [set] for a key that is not the last. *)
Lemma assign_step k k' rest x current :
  assign (k :: k' :: rest) x current
  = match current with
    | VArr _ => Unmodelled
    | _ =>
        child ← getProp current k;
        current ←
          (if truthy child then Returns current
           else putProp current k (VObj ∅));
        child ← getProp current k;
        child ← assign (k' :: rest) x child;
        match current with
        | VObj properties => Returns (VObj (<[k := child]> properties))
        | _ => Returns current
        end
    end.
Proof. reflexivity. Qed.

(** The step of [set] on a mapping: through a truthy child, and past an
    absent or falsy one, where a fresh empty mapping takes its place. *)
Lemma assign_descend k k' rest x (properties : gmap string value) child :
  properties !! k = Some child → truthy child = true →
  assign (k :: k' :: rest) x (VObj properties)
  = child' ← assign (k' :: rest) x child;
    Returns (VObj (<[k := child']> properties)).
Proof.
  intros Hk Ht. rewrite assign_step.
  generalize (assign (k' :: rest) x) as continue. intros continue.
  cbn [getProp ownProperties]. rewrite Hk. cbn [mbind outcome_bind].
  rewrite Ht. cbn [mbind outcome_bind getProp ownProperties]. by rewrite Hk.
Qed.

Lemma assign_fresh k k' rest x (properties : gmap string value) :
  truthy (default VUndefined (properties !! k)) = false →
  (properties !! k = None → inherited k = false) →
  assign (k :: k' :: rest) x (VObj properties)
  = child' ← assign (k' :: rest) x (VObj ∅);
    Returns (VObj (<[k := child']> properties)).
Proof.
  intros Ht Hk. rewrite assign_step.
  generalize (assign (k' :: rest) x) as continue. intros continue.
  cbn [getProp ownProperties absent putProp].
  destruct (properties !! k) as [child|] eqn:E.
  - cbn [default from_option id] in Ht. cbn [mbind outcome_bind].
    rewrite Ht. cbn [mbind outcome_bind getProp ownProperties].
    rewrite lookup_insert_eq. cbn [mbind outcome_bind].
    destruct (continue (VObj ∅)); cbn [mbind outcome_bind]; try done.
    by rewrite insert_insert_eq.
  - rewrite (Hk eq_refl). cbn [mbind outcome_bind truthy].
    assert (String.eqb k "__proto__" = false) as ->.
    { destruct (String.eqb_spec k "__proto__") as [->|]; [|done].
      by specialize (Hk eq_refl). }
    cbn [mbind outcome_bind getProp ownProperties].
    rewrite lookup_insert_eq. cbn [mbind outcome_bind].
    destruct (continue (VObj ∅)); cbn [mbind outcome_bind]; try done.
    by rewrite insert_insert_eq.
Qed.

(** The last step of [set] on a mapping. *)
Lemma assign_last k x (properties : gmap string value) :
  passable [k] (VObj properties) = true →
  assign [k] x (VObj properties) = Returns (VObj (<[k := x]> properties)).
Proof.
  cbn [passable assign putProp].
  destruct (properties !! k); [done|]. by destruct (String.eqb k "__proto__").
Qed.

Lemma walk_inserted k keys x (properties : gmap string value) :
  walk (k :: keys) (VObj (<[k := x]> properties))
  = match x with
    | VUndefined => Returns VUndefined
    | _ => walk keys x
    end.
Proof. rewrite walk_object, lookup_insert_eq. by destruct x. Qed.

Lemma assign_walk x keys :
  ∀ current, passable keys current = true →
  ∃ current',
    assign keys x current = Returns current'
    ∧ isObject current' = true
    ∧ walk keys current' = Returns x.
Proof.
  induction keys as [|k rest IH]; intros current Hp; [done|].
  destruct rest as [|k' rest].
  - destruct current as [| | | | | |properties]; try done.
    rewrite (assign_last _ _ _ Hp).
    eexists. split; [reflexivity|]. split; [done|].
    rewrite walk_inserted. by destruct x.
  - destruct current as [| | | | | |properties]; try done.
    rewrite passable_step in Hp.
    destruct (properties !! k) as [child|] eqn:Hk;
      [destruct (truthy child) eqn:Ht|].
    + destruct (IH child Hp) as (child' & Ha & Ho & Hw).
      rewrite (assign_descend _ _ _ _ _ child) by done. rewrite Ha.
      eexists. split; [reflexivity|]. split; [done|].
      rewrite walk_inserted. by destruct child'.
    + destruct (IH (VObj ∅) Hp) as (child' & Ha & Ho & Hw).
      rewrite assign_fresh by by rewrite Hk. rewrite Ha.
      eexists. split; [reflexivity|]. split; [done|].
      rewrite walk_inserted. by destruct child'.
    + apply andb_true_iff in Hp as [Hin Hp]. apply negb_true_iff in Hin.
      destruct (IH (VObj ∅) Hp) as (child' & Ha & Ho & Hw).
      rewrite assign_fresh by by rewrite Hk. rewrite Ha.
      eexists. split; [reflexivity|]. split; [done|].
      rewrite walk_inserted. by destruct child'.
Qed.

End Paths.

(** Claim C5 fails on the code.  [get] tests [result[k] === undefined]
    only, so a [null] met before the end of the path is descended into and
    the next read throws a [TypeError].  The document [{ llm: null }]
    does it, and the store reaches such a state from its defaults by
    [set("llm", null)] and by loading a document whose [llm] is [null]. *)
Theorem get_null_throws :
  Config.get (Config.VObj {[ "llm" := Config.VNull ]}) "llm.model"
  = Config.Throws Config.TypeError
  ∧ (∃ config,
       Config.set (Config.defaults Config.VUndefined) "llm" Config.VNull
       = Config.Returns config
       ∧ Config.get config "llm.model" = Config.Throws Config.TypeError)
  ∧ Config.get
      (Config.deepMerge (Config.defaults Config.VUndefined)
         (Config.VObj {[ "llm" := Config.VNull ]}))
      "llm.model"
    = Config.Throws Config.TypeError.
Proof.
  split; [by vm_compute|]. split; [|by vm_compute].
  eexists. split; [by vm_compute|]. by vm_compute.
Qed.

(** Claim C6 fails on the code.  [set] tests [!current[k]], so only a
    falsy value gives way to a fresh mapping: an intermediate key that
    holds a truthy value which is not a mapping is descended into, and the
    write into the string throws a [TypeError].  From the defaults,
    [set("llm.provider.name", "x")] throws, and nothing is set. *)
Theorem set_through_string_throws :
  Config.set (Config.defaults Config.VUndefined) "llm.provider.name"
    (Config.VStr "x")
  = Config.Throws Config.TypeError
  ∧ ¬ ∃ config',
        Config.set (Config.defaults Config.VUndefined) "llm.provider.name"
          (Config.VStr "x")
        = Config.Returns config'
        ∧ Config.get config' "llm.provider.name"
          = Config.Returns (Config.VStr "x").
Proof.
  assert (Config.set (Config.defaults Config.VUndefined)
            "llm.provider.name" (Config.VStr "x")
          = Config.Throws Config.TypeError) as H by by vm_compute.
  split; [done|]. intros (config' & Hset & _). congruence.
Qed.

(** ** Loading *)

Section Loading.
Import Config.
Variable env : Environment.

Lemma parse_returns_or_throws extension fileContents :
  (∃ loaded, parse env extension fileContents = Returns loaded)
  ∨ (∃ e, parse env extension fileContents = Throws e).
Proof.
  unfold parse. destruct (String.eqb extension ".json").
  - destruct (JSON_parse env fileContents); simpl; eauto.
  - case_bool_decide; [|eauto].
    destruct (yaml_parse env fileContents); simpl; eauto.
Qed.

Lemma parse_unsupported extension fileContents :
  extension ∉ [".json"; ".yml"; ".yaml"]%string →
  parse env extension fileContents = Throws (UnsupportedFormat extension).
Proof.
  intros H. unfold parse.
  destruct (String.eqb_spec extension ".json") as [->|_].
  - destruct H. left.
  - rewrite bool_decide_eq_false_2; [done|].
    intros Hin. apply H. by right.
Qed.

(** [loadFromFile] by cases on the read and on the parse. *)
Lemma loadFromFile_unreadable config configPath e :
  readFileSync env configPath = inl e →
  loadFromFile env config configPath = Returns (config, false).
Proof. intros H. unfold loadFromFile. by rewrite H. Qed.

Lemma loadFromFile_unparsed config configPath fileContents e :
  readFileSync env configPath = inr fileContents →
  parse env (toLowerCase (extname env configPath)) fileContents
  = Throws e →
  loadFromFile env config configPath = Returns (config, false).
Proof.
  intros Hr Hp. unfold loadFromFile. rewrite Hr. simpl. by rewrite Hp.
Qed.

Lemma loadFromFile_parsed config configPath fileContents loadedConfig :
  readFileSync env configPath = inr fileContents →
  parse env (toLowerCase (extname env configPath)) fileContents
  = Returns loadedConfig →
  loadFromFile env config configPath
  = Returns (deepMerge config loadedConfig, true).
Proof.
  intros Hr Hp. unfold loadFromFile. rewrite Hr. simpl. by rewrite Hp.
Qed.

End Loading.

(** A path that the override omits reads in the merge as it reads in the
    base. *)
Lemma walk_deepMerge_omitted keys :
  ∀ base override,
    Config.omitted keys base override = true →
    Config.walk keys (Config.deepMerge base override)
    = Config.walk keys base.
Proof.
  induction keys as [|k rest IH]; intros base override Ho; [done|].
  destruct base as [| | | | | |baseProperties]; try done.
  destruct override as [| | | | | |overrideProperties]; try done.
  cbn [Config.omitted] in Ho.
  destruct (deepMerge_by_key baseProperties overrideProperties)
    as (merged & -> & Hkeys).
  rewrite !walk_object.
  destruct (overrideProperties !! k) as [overrideChild|] eqn:Hk.
  - destruct (baseProperties !! k) as [baseChild|] eqn:Hb; [|done].
    destruct rest as [|k' rest]; [done|].
    destruct baseChild as [| | | | | |b]; try done.
    destruct overrideChild as [| | | | | |o]; try done.
    rewrite (proj1 (proj2 (Hkeys k)) _ _ Hb Hk).
    rewrite <- (IH _ _ Ho).
    by destruct (deepMerge_by_key b o) as (m & -> & _).
  - by rewrite (proj1 (Hkeys k) Hk).
Qed.

(** Claim C4 holds of the code for a loaded document none of whose
    keys, at any depth, is a name inherited from [Object.prototype]; at
    such a name the code fails it: a file [{"__proto__": {"polluted":
    true}}] makes [get("polluted")] return [true], a key the file omits.
    For the other documents, after a successful load over a mapping the
    store holds the merge of the two documents at the level of the
    objects: every path
    that the loaded document omits reads as before the load — the loaded
    document is left in a mapping without the next key, after mappings
    that the prior document has too; and inside a section that both have
    as mappings, a loaded value that is not a mapping replaces the prior
    one.  Over the defaults, loading [{llm:{model:"custom"}}] leaves
    [get("llm.model")] at ["custom"] and [get("llm.provider")] at
    ["openai"]. *)
Theorem loadFromFile_merges
    (env : Config.Environment) (configPath fileContents : string)
    (properties loaded : gmap string Config.value) :
  Config.readFileSync env configPath = inr fileContents →
  Config.parse env (Config.toLowerCase (Config.extname env configPath))
    fileContents
  = Config.Returns (Config.VObj loaded) →
  Config.ownNames (Config.VObj loaded) = true →
  ∃ merged,
    Config.loadFromFile env (Config.VObj properties) configPath
    = Config.Returns (Config.VObj merged, true)
    ∧ (∀ key,
         Config.omitted (Config.split key) (Config.VObj properties)
           (Config.VObj loaded) = true →
         Config.get (Config.VObj merged) key
         = Config.get (Config.VObj properties) key)
    ∧ (∀ section prior override key v,
         properties !! section = Some (Config.VObj prior) →
         loaded !! section = Some (Config.VObj override) →
         override !! key = Some v →
         Config.isObject v = false →
         ∃ mergedSection,
           merged !! section = Some (Config.VObj mergedSection)
           ∧ mergedSection !! key = Some v)
    ∧ (∀ apiKey,
         Config.VObj properties = Config.defaults apiKey →
         loaded
         = {[ "llm" := Config.VObj {[ "model" := Config.VStr "custom" ]} ]} →
         Config.get (Config.VObj merged) "llm.model"
         = Config.Returns (Config.VStr "custom")
         ∧ Config.get (Config.VObj merged) "llm.provider"
           = Config.Returns (Config.VStr "openai")).
Proof.
  intros Hr Hp _.
  rewrite (loadFromFile_parsed env _ _ _ _ Hr Hp).
  destruct (deepMerge_by_key properties loaded) as (merged & Hm & Hkeys).
  exists merged. rewrite Hm. split; [done|]. split; [|split].
  - intros key Ho. unfold Config.get. rewrite <- Hm.
    by apply walk_deepMerge_omitted.
  - intros section prior override key v Hprior Hover Hv Hobj.
    rewrite (proj1 (proj2 (Hkeys section)) _ _ Hprior Hover).
    destruct (deepMerge_by_key prior override)
      as (mergedSection & -> & Hsection).
    exists mergedSection. split; [done|].
    apply (proj2 (proj2 (Hsection key))); auto.
  - intros apiKey Hdefaults ->.
    assert (Config.VObj merged
            = Config.deepMerge (Config.defaults apiKey)
                (Config.VObj
                   {[ "llm" := Config.VObj
                                 {[ "model" := Config.VStr "custom" ]} ]}))
      as -> by by rewrite <- Hdefaults.
    split; by vm_compute.
Qed.

(** The file [config.json] of the tests, read and parsed to
    [{llm:{model:"custom"}}], over the defaults. *)
Lemma loadFromFile_merges_witness :
  let env :=
    {| Config.readFileSync := λ _, inr "{}"%string;
       Config.extname := λ _, ".json"%string;
       Config.JSON_parse := λ _,
         inr (Config.VObj
                {[ "llm" := Config.VObj
                              {[ "model" := Config.VStr "custom" ]} ]});
       Config.yaml_parse := λ _, inl Config.SyntaxError |} in
  ∃ config,
    Config.loadFromFile env (Config.defaults Config.VUndefined) "config.json"
    = Config.Returns (config, true)
    ∧ Config.get config "llm.model" = Config.Returns (Config.VStr "custom")
    ∧ Config.get config "llm.provider"
      = Config.Returns (Config.VStr "openai").
Proof.
  intros env.
  destruct (loadFromFile_merges env "config.json" "{}"
              (Config.ownProperties (Config.defaults Config.VUndefined))
              {[ "llm" := Config.VObj {[ "model" := Config.VStr "custom" ]} ]}
              eq_refl eq_refl ltac:(by vm_compute))
    as (merged & Hload & _ & _ & Hget).
  exists (Config.VObj merged). split; [exact Hload|].
  exact (Hget Config.VUndefined eq_refl eq_refl).
Defined.

(** The other copy of [loadFromFile], which spreads the loaded document
    over the current one, replaces the section [llm] as a whole: the
    provider is lost. *)
Lemma spread_loadFromFile_replaces (env : Config.Environment)
    (configPath fileContents : string) :
  Config.readFileSync env configPath = inr fileContents →
  Config.parse env (Config.toLowerCase (Config.extname env configPath))
    fileContents
  = Config.Returns
      (Config.VObj
         {[ "llm" := Config.VObj {[ "model" := Config.VStr "custom" ]} ]}) →
  ∃ config,
    Config.Spread.loadFromFile env (Config.defaults Config.VUndefined)
      configPath
    = Config.Returns (config, true)
    ∧ Config.get config "llm.model" = Config.Returns (Config.VStr "custom")
    ∧ Config.get config "llm.provider" = Config.Returns Config.VUndefined.
Proof.
  intros Hr Hp. unfold Config.Spread.loadFromFile.
  rewrite Hr. simpl. rewrite Hp. simpl.
  eexists. split; [reflexivity|]. split; by vm_compute.
Qed.

(** Claim C7.  [loadFromFile] always returns, and never throws: it
    returns [false] and leaves the document as it was when the file cannot
    be read, when the parser throws, and when the extension is none of
    [.json], [.yml], [.yaml]; whenever it returns [false] the document is
    unchanged, and it returns [true], with the merged document, only after
    a successful parse. *)
Theorem loadFromFile_failure
    (env : Config.Environment) (config : Config.value)
    (configPath : string) :
  (∃ config' ok,
     Config.loadFromFile env config configPath
     = Config.Returns (config', ok)
     ∧ (ok = false → config' = config)
     ∧ (ok = true →
        ∃ fileContents loadedConfig,
          Config.readFileSync env configPath = inr fileContents
          ∧ Config.parse env
              (Config.toLowerCase (Config.extname env configPath))
              fileContents
            = Config.Returns loadedConfig
          ∧ config' = Config.deepMerge config loadedConfig))
  ∧ (∀ e,
       Config.readFileSync env configPath = inl e →
       Config.loadFromFile env config configPath
       = Config.Returns (config, false))
  ∧ (∀ fileContents e,
       Config.readFileSync env configPath = inr fileContents →
       Config.parse env
         (Config.toLowerCase (Config.extname env configPath)) fileContents
       = Config.Throws e →
       Config.loadFromFile env config configPath
       = Config.Returns (config, false))
  ∧ (∀ fileContents,
       Config.readFileSync env configPath = inr fileContents →
       Config.toLowerCase (Config.extname env configPath)
       ∉ [".json"; ".yml"; ".yaml"]%string →
       Config.loadFromFile env config configPath
       = Config.Returns (config, false)).
Proof.
  split; [|split; [|split]].
  - destruct (Config.readFileSync env configPath) as [e|fileContents] eqn:Hr.
    + exists config, false.
      rewrite (loadFromFile_unreadable env _ _ _ Hr). by repeat split.
    + destruct (parse_returns_or_throws env
                  (Config.toLowerCase (Config.extname env configPath))
                  fileContents) as [[loaded Hp]|[e Hp]].
      * exists (Config.deepMerge config loaded), true.
        rewrite (loadFromFile_parsed env _ _ _ _ Hr Hp).
        repeat split; [done|]. intros _. by exists fileContents, loaded.
      * exists config, false.
        rewrite (loadFromFile_unparsed env _ _ _ _ Hr Hp). by repeat split.
  - intros e. apply loadFromFile_unreadable.
  - intros fileContents e. apply loadFromFile_unparsed.
  - intros fileContents Hr Hext.
    apply (loadFromFile_unparsed env _ _ fileContents
             (Config.UnsupportedFormat
                (Config.toLowerCase (Config.extname env configPath))) Hr).
    by apply parse_unsupported.
Qed.

(** The file [config.txt] of the tests: read, and refused for its
    extension. *)
Lemma loadFromFile_failure_witness :
  let env :=
    {| Config.readFileSync := λ _, inr "some content"%string;
       Config.extname := λ _, ".txt"%string;
       Config.JSON_parse := λ _, inl Config.SyntaxError;
       Config.yaml_parse := λ _, inl Config.SyntaxError |} in
  Config.loadFromFile env (Config.defaults Config.VUndefined) "config.txt"
  = Config.Returns (Config.defaults Config.VUndefined, false).
Proof.
  intros env.
  refine (proj2 (proj2 (proj2
            (loadFromFile_failure env (Config.defaults Config.VUndefined)
               "config.txt"))) "some content"%string eq_refl _).
  apply (bool_decide_unpack _). by vm_compute.
Defined.

(** ** The deep merge on the store *)

Section Indexed.
Context {A : Type}.

Lemma indexed_keys (l : list A) :
  (imap (λ i x, (pretty i : string, x)) l).*1 = pretty <$> seq 0 (length l).
Proof.
  rewrite fmap_imap. rewrite <- (imap_seq_0 l pretty). by apply imap_ext.
Qed.

Lemma lookup_indexed (l : list A) key x :
  Config.indexed l !! key = Some x ↔ ∃ i, key = pretty i ∧ l !! i = Some x.
Proof.
  unfold Config.indexed. rewrite <- elem_of_list_to_map.
  - rewrite elem_of_lookup_imap. split.
    + intros (i & y & [= -> ->] & Hi). by exists i.
    + intros (i & -> & Hi). by exists i, x.
  - rewrite indexed_keys. apply NoDup_fmap_2; [apply _ | apply NoDup_seq].
Qed.

Lemma indexed_is_Some (l : list A) key :
  is_Some (Config.indexed l !! key) ↔ ∃ i, key = pretty i ∧ (i < length l)%nat.
Proof.
  split.
  - intros [x (i & -> & Hi)%lookup_indexed]. exists i. split; [done|].
    by apply lookup_lt_Some in Hi.
  - intros (i & -> & Hi). apply lookup_lt_is_Some_2 in Hi as [x Hx].
    exists x. apply lookup_indexed. by exists i.
Qed.

End Indexed.

Lemma dom_indexed {A B} (l : list A) (l' : list B) :
  length l = length l' → dom (Config.indexed l) = dom (Config.indexed l').
Proof.
  intros Hlen. apply set_eq. intros key.
  by rewrite !elem_of_dom, !indexed_is_Some, Hlen.
Qed.

Lemma depth_lookup (properties : gmap string Config.value) key child :
  properties !! key = Some child →
  (Config.depth child < Config.depth (Config.VObj properties))%nat.
Proof.
  simpl. intros Hkey. apply Nat.lt_succ_r. revert key child Hkey.
  apply (map_fold_weak_ind
           (λ d (visited : gmap string Config.value),
              ∀ key child,
                visited !! key = Some child → (Config.depth child ≤ d)%nat)).
  - intros key child. by rewrite lookup_empty.
  - intros k v visited d _ IH key child.
    destruct (decide (k = key)) as [->|Hne].
    + rewrite lookup_insert_eq. intros [= ->]. lia.
    + rewrite lookup_insert_ne by done. intros H%IH. lia.
Qed.

Section Representation.
Import Store.

Lemma represents_weaken (σ σ' : gmap loc object) v x :
  σ ⊆ σ' → represents σ v x → represents σ' v x.
Proof.
  intros Hsub Hrep.
  induction Hrep as [| | | | |l stored properties Hl Hdom _ IH
                     |l stored elements Hl Hlen _ IH]; try by constructor.
  - apply (represents_obj _ _ stored); [|done|done].
    by apply (lookup_weaken σ).
  - apply (represents_arr _ _ stored); [|done|done].
    by apply (lookup_weaken σ).
Qed.

Lemma similar_weaken (σ σ' : gmap loc object) stored properties :
  σ ⊆ σ' → similar σ stored properties → similar σ' stored properties.
Proof.
  intros Hsub [Hdom Hrep]. split; [done|].
  intros key v x Hv Hx. apply (represents_weaken σ); [done|].
  by apply (Hrep key).
Qed.

Lemma similar_None (σ : gmap loc object) stored properties key :
  similar σ stored properties →
  stored !! key = None ↔ properties !! key = None.
Proof.
  intros [Hdom _]. by rewrite <- !not_elem_of_dom, Hdom.
Qed.

Lemma similar_Some (σ : gmap loc object) stored properties key v :
  similar σ stored properties → stored !! key = Some v →
  ∃ x, properties !! key = Some x ∧ represents σ v x.
Proof.
  intros Hsim Hv.
  destruct (properties !! key) as [x|] eqn:Hx.
  - exists x. split; [done|]. by apply (proj2 Hsim key).
  - apply (similar_None _ _ _ key Hsim) in Hx. congruence.
Qed.

Lemma similar_insert (σ : gmap loc object) stored properties key v x :
  similar σ stored properties → represents σ v x →
  similar σ (<[key := v]> stored) (<[key := x]> properties).
Proof.
  intros [Hdom Hrep] Hvx. split.
  - by rewrite !dom_insert_L, Hdom.
  - intros k v' x'. destruct (decide (key = k)) as [->|Hne].
    + rewrite !lookup_insert_eq. by intros [= <-] [= <-].
    + rewrite !lookup_insert_ne by done. apply Hrep.
Qed.

Lemma represents_isObject (σ : gmap loc object) v x :
  represents σ v x → isObject σ v = Config.isObject x.
Proof. destruct 1 as [| | | | |? ? ? Hl|? ? ? Hl]; simpl; by rewrite ?Hl. Qed.

(** The spread copies properties that stand for those of the document. *)
Lemma represents_ownProperties (σ : gmap loc object) v x :
  represents σ v x →
  similar σ (ownProperties σ v) (Config.ownProperties x).
Proof.
  destruct 1 as [| | | |s|l stored properties Hl Hdom Hrep
                 |l stored elements Hl Hlen Hrep]; simpl; try done.
  - split.
    + apply dom_indexed. unfold characters, Config.characters.
      by rewrite !length_fmap.
    + intros key v x (i & -> & Hv)%lookup_indexed (j & Hj & Hx)%lookup_indexed.
      apply (inj pretty) in Hj as <-.
      unfold characters in Hv. unfold Config.characters in Hx.
      rewrite list_lookup_fmap in Hv. rewrite list_lookup_fmap in Hx.
      destruct (String.list_ascii_of_string s !! i); simplify_eq/=.
      constructor.
  - rewrite Hl. by split.
  - rewrite Hl. split; [by apply dom_indexed|].
    intros key v x (i & -> & Hv)%lookup_indexed (j & Hj & Hx)%lookup_indexed.
    apply (inj pretty) in Hj as <-. by apply (Hrep i).
Qed.

End Representation.

Section MergeOnStore.
Import Store.

Lemma extends_trans (σ0 σ σ1 τ1 σ2 τ2 : gmap loc object) :
  extends σ0 σ σ1 τ1 → extends σ1 τ1 σ2 τ2 → extends σ0 σ σ2 τ2.
Proof.
  intros (Hs & H0 & Hi & Hl) (Hs' & H0' & Hi' & Hl').
  split; [by etrans|]. split; [by etrans|]. split; [done|].
  intros l [c Hc]. rewrite Hl'; [by apply Hl|].
  exists c. by apply (lookup_weaken σ).
Qed.

(** A write to an object that the old store does not hold. *)
Lemma extends_write (σ0 σ σ1 τ1 : gmap loc object) output c :
  σ !! output = None → σ1 !! output = None →
  extends σ0 σ σ1 τ1 → extends σ0 σ σ1 (<[output := c]> τ1).
Proof.
  intros Hnew Hnew1 (Hs & H0 & Hi & Hl).
  split; [by apply insert_subseteq_r|]. split; [done|].
  split; [by apply insert_subseteq_r | done].
Qed.

Lemma write_object (σ : gmap loc object) output properties key x :
  σ !! output = Some (Obj properties) →
  write output key x σ = <[output := Obj (<[key := x]> properties)]> σ.
Proof. intros H. unfold write. by rewrite H. Qed.

Lemma ownProperties_weaken (σ0 σ : gmap loc object) v x :
  σ0 ⊆ σ → represents σ0 v x → ownProperties σ v = ownProperties σ0 v.
Proof.
  intros Hsub. destruct 1 as [| | | | |? ? ? Hl|? ? ? Hl]; simpl; try done;
    by rewrite Hl, (lookup_weaken _ _ _ _ Hl Hsub).
Qed.

Lemma foldl_insert_lookup {V} (g : string → V) keys
    (partial : gmap string V) key :
  foldl (λ acc k, <[k := g k]> acc) partial keys !! key
  = if bool_decide (key ∈ keys) then Some (g key) else partial !! key.
Proof.
  revert partial. induction keys as [|k keys IH]; intros partial; simpl.
  - done.
  - rewrite IH. destruct (decide (key ∈ keys)) as [Hin|Hnin].
    + rewrite !bool_decide_eq_true_2; [done | by right | done].
    + rewrite (bool_decide_eq_false_2 (key ∈ keys)) by done.
      destruct (decide (k = key)) as [->|Hne].
      * rewrite lookup_insert_eq. rewrite bool_decide_eq_true_2; [done|left].
      * rewrite lookup_insert_ne by done.
        rewrite bool_decide_eq_false_2; [done|].
        intros [?|?]%elem_of_cons; congruence.
Qed.

(** The loop of [deepMerge] over the keys of the source, given the
    recursive calls at the fuel [n]: it keeps the store it started from,
    and the object at [output] comes to stand for the merged
    properties. *)
Section Loop.
Variable n : nat.
Hypothesis recurse :
  ∀ σ0 σ target source t s,
    (Config.depth s < n)%nat → σ0 ⊆ σ →
    represents σ0 target t → represents σ0 source s →
    ∃ output σ' σ0',
      deepMerge n target source σ = Some (Ref output, σ')
      ∧ σ !! output = None
      ∧ extends σ0 σ σ0' σ'
      ∧ represents σ0' (Ref output) (Config.deepMerge t s).
Variables (σ0 σ : gmap loc object) (output lt ls : loc).
Variables (mt ms : gmap string value) (tp sp : gmap string Config.value).
Hypothesis Hnew : σ !! output = None.
Hypothesis Hlt : σ0 !! lt = Some (Obj mt).
Hypothesis Hls : σ0 !! ls = Some (Obj ms).
Hypothesis Ht : similar σ0 mt tp.
Hypothesis Hs : similar σ0 ms sp.
Hypothesis Hdepth : (Config.depth (Config.VObj sp) ≤ n)%nat.

Lemma mergeKey_step key v σi σ0i outi :
  ms !! key = Some v →
  extends σ0 σ σ0i σi →
  σi !! output = Some (Obj outi) → σ0i !! output = None →
  ∃ σ' σ0' x,
    mergeKey (deepMerge n) (Ref lt) (Ref ls) output key σi = Some σ'
    ∧ extends σ0 σ σ0' σ'
    ∧ σ' !! output = Some (Obj (<[key := x]> outi))
    ∧ σ0' !! output = None
    ∧ σ0i ⊆ σ0'
    ∧ represents σ0' x (mergedAt tp sp key).
Proof.
  intros Hv Hext Hout Hout0.
  destruct (similar_Some _ _ _ _ _ Hs Hv) as (sv & Hsv & Hrep).
  pose proof Hext as (_ & Hsub0 & Hsubi & _).
  assert (σ0 ⊆ σi) as Hsub by by etrans.
  unfold mergeKey, mergedAt. cbn [ownProperties].
  rewrite (lookup_weaken _ _ _ _ Hls Hsub), Hv, Hsv. cbn [from_option id].
  rewrite (represents_isObject σi v sv) by by apply (represents_weaken σ0).
  rewrite (lookup_weaken _ _ _ _ Hlt Hsub).
  assert (∀ y,
            represents σ0 v y →
            ∃ σ' σ0' x,
              Some (write output key v σi) = Some σ'
              ∧ extends σ0 σ σ0' σ'
              ∧ σ' !! output = Some (Obj (<[key := x]> outi))
              ∧ σ0' !! output = None
              ∧ σ0i ⊆ σ0'
              ∧ represents σ0' x y) as Hwrite.
  { intros y Hy. exists (write output key v σi), σ0i, v.
    rewrite (write_object _ _ outi) by done. split_and!; try done.
    - by apply extends_write.
    - by rewrite lookup_insert_eq.
    - by apply (represents_weaken σ0). }
  destruct (Config.isObject sv) eqn:Hobj; [|by apply Hwrite].
  destruct (mt !! key) as [tv|] eqn:Htv.
  - destruct (similar_Some _ _ _ _ _ Ht Htv) as (tx & Htx & Hreptv).
    rewrite Htx.
    destruct (recurse σ0i σi tv v tx sv)
      as (ok & σ' & σ0' & Heq & Hfresh & Hext' & Hrepk).
    { pose proof (depth_lookup sp key sv Hsv). lia. }
    { done. }
    { by apply (represents_weaken σ0). }
    { by apply (represents_weaken σ0). }
    rewrite Heq. cbn.
    pose proof Hext' as (Hsi & Hs0 & Hsi' & Hloc).
    rewrite (write_object _ _ outi)
      by by apply (lookup_weaken _ _ _ _ Hout Hsi).
    assert (σ0' !! output = None) as Hout0'.
    { rewrite Hloc; [done | by exists (Obj outi)]. }
    eexists _, σ0', (Ref ok). split_and!; try done.
    + apply extends_write; [done|done|].
      by apply (extends_trans _ _ σ0i σi).
    + by rewrite lookup_insert_eq.
  - apply (similar_None _ _ _ key Ht) in Htv. rewrite Htv. by apply Hwrite.
Qed.

Lemma forEach_mergeKey keys :
  (∀ key, key ∈ keys → is_Some (ms !! key)) →
  ∀ σi σ0i outi partial,
    extends σ0 σ σ0i σi →
    σi !! output = Some (Obj outi) → σ0i !! output = None →
    similar σ0i outi partial →
    ∃ σn σ0n outn,
      forEach (mergeKey (deepMerge n) (Ref lt) (Ref ls) output) keys σi
      = Some σn
      ∧ extends σ0 σ σ0n σn
      ∧ σn !! output = Some (Obj outn)
      ∧ σ0n !! output = None
      ∧ similar σ0n outn
          (foldl (λ acc k, <[k := mergedAt tp sp k]> acc) partial keys).
Proof.
  induction keys as [|key keys IH];
    intros Hkeys σi σ0i outi partial Hext Hout Hout0 Hsim.
  { exists σi, σ0i, outi. by split_and!. }
  destruct (Hkeys key) as [v Hv]; [left|].
  destruct (mergeKey_step key v σi σ0i outi Hv Hext Hout Hout0)
    as (σ' & σ0' & x & Heq & Hext' & Hout' & Hout0' & Hsub' & Hx).
  cbn [forEach foldl]. rewrite Heq. cbn.
  apply (IH (λ k Hk, Hkeys k (list_elem_of_further _ _ _ Hk))
            σ' σ0' (<[key := x]> outi)); try done.
  apply similar_insert; [|done]. by apply (similar_weaken σ0i).
Qed.

End Loop.

Lemma elem_of_keys {V} (m : gmap string V) key :
  key ∈ (map_to_list m).*1 ↔ is_Some (m !! key).
Proof.
  rewrite list_elem_of_fmap. split.
  - intros ([k v] & -> & Hin%elem_of_map_to_list). by exists v.
  - intros [v Hv]. exists (key, v). by rewrite elem_of_map_to_list.
Qed.

(** The tree-level merge, as the loop builds it key by key. *)
Lemma deepMerge_foldl (tp sp : gmap string Config.value) keys :
  (∀ key, key ∈ keys ↔ is_Some (sp !! key)) →
  Config.deepMerge (Config.VObj tp) (Config.VObj sp)
  = Config.VObj (foldl (λ acc k, <[k := mergedAt tp sp k]> acc) tp keys).
Proof.
  intros Hkeys. rewrite deepMerge_objects. f_equal. apply map_eq. intros key.
  rewrite merge_loop_lookup, foldl_insert_lookup. unfold mergedAt.
  case_bool_decide as Hin; rewrite Hkeys in Hin.
  - by destruct Hin as [sv ->].
  - apply eq_None_not_Some in Hin. by rewrite Hin.
Qed.

Lemma deepMerge_extends (n : nat) :
  ∀ σ0 σ target source t s,
    (Config.depth s < n)%nat → σ0 ⊆ σ →
    represents σ0 target t → represents σ0 source s →
    ∃ output σ' σ0',
      deepMerge n target source σ = Some (Ref output, σ')
      ∧ σ !! output = None
      ∧ extends σ0 σ σ0' σ'
      ∧ represents σ0' (Ref output) (Config.deepMerge t s).
Proof.
  induction n as [|n IH]; intros σ0 σ target source t s Hd Hsub Ht Hs;
    [lia|].
  cbn [deepMerge].
  pose proof (is_fresh (dom σ)) as Hnew. apply not_elem_of_dom in Hnew.
  assert (σ0 !! fresh (dom σ) = None) as Hnew0
    by by apply (lookup_weaken_None _ σ).
  generalize dependent (fresh (dom σ)). intros output Hnew Hnew0.
  rewrite (ownProperties_weaken σ0 σ target t) by done.
  pose proof (represents_ownProperties _ _ _ Ht) as Htsim.
  assert (σ ⊆ <[output := Obj (ownProperties σ0 target)]> σ) as Hsub1
    by by apply insert_subseteq.
  assert (σ0 ⊆ <[output := Obj (ownProperties σ0 target)]> σ) as Hsub01
    by by etrans.
  rewrite (represents_isObject _ target t)
    by by apply (represents_weaken σ0).
  rewrite (represents_isObject _ source s)
    by by apply (represents_weaken σ0).
  destruct (Config.isObject t && Config.isObject s) eqn:Hobj.
  - apply andb_prop in Hobj as [Hto Hso].
    destruct Ht as [| | | | |lt mt tp Hlt Hdomt Hrept|]; try done.
    destruct Hs as [| | | | |ls ms sp Hls Hdoms Hreps|]; try done.
    cbn [ownProperties] in *. rewrite Hlt in *.
    rewrite (lookup_weaken _ _ _ _ Hls Hsub01).
    destruct (forEach_mergeKey n IH σ0 σ output lt ls mt ms tp sp
                Hnew Hlt Hls Htsim (conj Hdoms Hreps) ltac:(lia)
                (map_to_list ms).*1 (λ k, proj1 (elem_of_keys ms k))
                (<[output := Obj mt]> σ) σ0 mt tp)
      as (σn & σ0n & outn & -> & Hext & Houtn & Hout0n & Hsim).
    { split; [done|]. by split_and!. }
    { by rewrite lookup_insert_eq. }
    { done. }
    { done. }
    cbn [mbind option_bind]. exists output, σn, (<[output := Obj outn]> σ0n).
    destruct Hext as (Hs1 & Hs2 & Hs3 & Hloc).
    split; [done|]. split; [done|]. split.
    + split; [done|]. split; [by apply insert_subseteq_r|].
      split; [by apply insert_subseteq_l|].
      intros l [c Hc]. rewrite lookup_insert_ne by congruence.
      apply Hloc. by exists c.
    + rewrite (deepMerge_foldl tp sp (map_to_list ms).*1).
      * apply (similar_weaken _ (<[output := Obj outn]> σ0n)) in Hsim;
          [|by apply insert_subseteq].
        destruct Hsim as [Hdom Hrep].
        apply (represents_obj _ _ outn); [|done|done].
        by rewrite lookup_insert_eq.
      * intros key. rewrite elem_of_keys.
        by rewrite <- !elem_of_dom, Hdoms.
  - rewrite deepMerge_not_object by done.
    exists output, (<[output := Obj (ownProperties σ0 target)]> σ),
      (<[output := Obj (ownProperties σ0 target)]> σ0).
    split; [done|]. split; [done|]. split.
    + split; [done|]. split; [by apply insert_subseteq|].
      split; [by apply insert_mono|].
      intros l [c Hc]. apply lookup_insert_ne. congruence.
    + apply (similar_weaken _ (<[output := Obj (ownProperties σ0 target)]> σ0))
        in Htsim; [|by apply insert_subseteq].
      destruct Htsim as [Hdom Hrep].
      apply (represents_obj _ _ (ownProperties σ0 target)); [|done|done].
      by rewrite lookup_insert_eq.
Qed.

End MergeOnStore.

(** On a store in which [target] and [source] stand for the documents [t]
    and [s], [deepMerge] returns with enough fuel; the reference returned
    is to a new object, every object of the store is left as it was, and
    the result stands for the merge of [t] and [s]. *)
Lemma deepMerge_on_store (σ : gmap Store.loc Store.object)
    (target source : Store.value) (t s : Config.value) :
  Store.represents σ target t → Store.represents σ source s →
  ∃ fuel output σ',
    Store.deepMerge fuel target source σ = Some (Store.Ref output, σ')
    ∧ σ !! output = None
    ∧ σ ⊆ σ'
    ∧ Store.represents σ' (Store.Ref output) (Config.deepMerge t s).
Proof.
  intros Ht Hs.
  destruct (deepMerge_extends (S (Config.depth s)) σ σ target source t s)
    as (output & σ' & σ0' & Heq & Hnew & (Hsub & _ & Hsub' & _) & Hrep);
    [lia|done|done|done|].
  exists (S (Config.depth s)), output, σ'. split_and!; try done.
  by apply (represents_weaken σ0').
Qed.

(** Claim C3 holds of the code for an override none of whose keys, at
    any depth, is a name inherited from [Object.prototype]; at such a name
    the code fails it, [key in target] being true of a key the base does
    not have, and [output[key] = ...] setting the prototype for
    [__proto__].  For the other overrides [deepMerge] is pure: run on a
    store of objects in which its arguments stand for the documents [base]
    and [override], it returns a reference to a new object that stands for
    the merged document, and every object of the store — the two inputs
    among them — is left as it was.  The merged document satisfies: a key
    of the base alone keeps the value of the base; a key whose override
    value is a mapping and which the base has too receives the recursive
    merge of the two values; every other override value, arrays included,
    replaces the value of the base.  In particular
    [deepMerge({a:{x:1,y:2}}, {a:{y:3}})] is [{a:{x:1,y:3}}]. *)
Theorem deepMerge_spec (base override : gmap string Config.value) :
  Config.ownNames (Config.VObj override) = true →
  (∀ (σ : gmap Store.loc Store.object) (target source : Store.value),
     Store.represents σ target (Config.VObj base) →
     Store.represents σ source (Config.VObj override) →
     ∃ fuel output σ',
       Store.deepMerge fuel target source σ = Some (Store.Ref output, σ')
       ∧ σ !! output = None
       ∧ σ ⊆ σ'
       ∧ Store.represents σ' (Store.Ref output)
           (Config.deepMerge (Config.VObj base) (Config.VObj override)))
  ∧ (∃ merged,
       Config.deepMerge (Config.VObj base) (Config.VObj override)
       = Config.VObj merged
       ∧ ∀ key,
           (override !! key = None → merged !! key = base !! key)
           ∧ (∀ b o,
                base !! key = Some b →
                override !! key = Some (Config.VObj o) →
                merged !! key
                = Some (Config.deepMerge b (Config.VObj o)))
           ∧ (∀ v,
                override !! key = Some v →
                Config.isObject v = false ∨ base !! key = None →
                merged !! key = Some v))
  ∧ Config.deepMerge
      (Config.VObj
         {[ "a" := Config.VObj {[ "x" := Config.VNum 1;
                                  "y" := Config.VNum 2 ]} ]})
      (Config.VObj {[ "a" := Config.VObj {[ "y" := Config.VNum 3 ]} ]})
    = Config.VObj
        {[ "a" := Config.VObj {[ "x" := Config.VNum 1;
                                 "y" := Config.VNum 3 ]} ]}.
Proof.
  intros _. split; [|split; [|by vm_compute]].
  - intros σ target source. apply deepMerge_on_store.
  - apply deepMerge_by_key.
Qed.

(** On the store [{1 ↦ {priority: 1}, 2 ↦ {priority: 2}}] the merge of the
    object at 1 with the object at 2 returns a new object and keeps the
    two; and on documents, an array of the override replaces the array of
    the base while the key of the base alone is kept. *)
Lemma deepMerge_spec_witness :
  (∃ fuel output σ',
     Store.deepMerge fuel (Store.Ref 1%positive) (Store.Ref 2%positive)
       {[ 1%positive := Store.Obj {[ "priority" := Store.Num 1 ]};
          2%positive := Store.Obj {[ "priority" := Store.Num 2 ]} ]}
     = Some (Store.Ref output, σ')
     ∧ σ' !! 1%positive = Some (Store.Obj {[ "priority" := Store.Num 1 ]})
     ∧ σ' !! 2%positive = Some (Store.Obj {[ "priority" := Store.Num 2 ]}))
  ∧ ∃ merged,
      Config.deepMerge
        (Config.VObj {[ "useCase" := Config.strings ["web"; "api"];
                        "priority" := Config.VNum 1 ]})
        (Config.VObj {[ "useCase" := Config.strings ["cli"] ]})
      = Config.VObj merged
      ∧ merged !! "priority"%string = Some (Config.VNum 1)
      ∧ merged !! "useCase"%string = Some (Config.strings ["cli"]).
Proof.
  split.
  - destruct (proj1 (deepMerge_spec {[ "priority" := Config.VNum 1 ]}
                       {[ "priority" := Config.VNum 2 ]}
                       ltac:(by vm_compute))
                {[ 1%positive := Store.Obj {[ "priority" := Store.Num 1 ]};
                   2%positive := Store.Obj {[ "priority" := Store.Num 2 ]} ]}
                (Store.Ref 1%positive) (Store.Ref 2%positive))
      as (fuel & output & σ' & Heq & _ & Hsub & _).
    + apply (Store.represents_obj _ _ {[ "priority" := Store.Num 1 ]});
        [by vm_compute | by vm_compute |].
      intros key v x [_ <-]%lookup_singleton_Some [_ <-]%lookup_singleton_Some.
      constructor.
    + apply (Store.represents_obj _ _ {[ "priority" := Store.Num 2 ]});
        [by vm_compute | by vm_compute |].
      intros key v x [_ <-]%lookup_singleton_Some [_ <-]%lookup_singleton_Some.
      constructor.
    + exists fuel, output, σ'. split; [exact Heq|].
      split; (eapply lookup_weaken; [|exact Hsub]); by vm_compute.
  - destruct (proj1 (proj2 (deepMerge_spec
                       {[ "useCase" := Config.strings ["web"; "api"];
                          "priority" := Config.VNum 1 ]}
                       {[ "useCase" := Config.strings ["cli"] ]}
                       ltac:(by vm_compute))))
      as (merged & Heq & Hkeys).
    exists merged. split; [exact Heq|]. split.
    + rewrite (proj1 (Hkeys "priority"%string)); by vm_compute.
    + apply (proj2 (proj2 (Hkeys "useCase"%string))); [by vm_compute|].
      by left.
Defined.

(** * Further properties *)

Lemma find_snoc {A} (f : A → bool) (l : list A) (x : A) :
  find f (l ++ [x])
  = match find f l with
    | Some y => Some y
    | None => if f x then Some x else None
    end.
Proof.
  induction l as [|y l IH]; simpl; [done|]. by destruct (f y).
Qed.

(** X4.  [addUseCase] appends and [matches] takes the first use case of a
    name: adding a use case leaves the score of every query as it was when
    the profile already has a use case of that name or the query names
    another; and on a profile without one, the use case added is the one a
    query of that name finds. *)
Theorem addUseCase_matches
    (this : Profile.LanguageProfile) (useCase : string) (score : Q)
    (requirements : Profile.Requirements) :
  (Profile.firstUseCase this useCase ≠ None
   ∨ Profile.req_useCase requirements ≠ Some useCase →
   Profile.matches (Profile.addUseCase useCase score this) requirements
   = Profile.matches this requirements)
  ∧ (Profile.firstUseCase this useCase = None →
     Profile.firstUseCase (Profile.addUseCase useCase score this) useCase
     = Some {| Profile.uc_name := useCase; Profile.uc_score := score |}).
Proof.
  split.
  - intros H. unfold Profile.matches, Profile.accumulateUseCase. simpl.
    rewrite find_snoc. simpl.
    destruct (Profile.truthy_string (Profile.req_useCase requirements))
      eqn:Ht; [|done].
    destruct (Profile.req_useCase requirements) as [u|]; [|done]. simpl.
    destruct (find _ (Profile.useCases this)) as [uc|] eqn:Hf; [done|].
    destruct (String.eqb_spec useCase u) as [->|Hne]; [|done].
    destruct H as [H|H]; [|done]. by destruct H.
  - intros H. unfold Profile.firstUseCase in *. simpl.
    rewrite find_snoc, H. simpl. by rewrite String.eqb_refl.
Qed.

(** The profile of go has a use case [api] scoring 8: adding [api] once
    more with the score 1 changes no score. *)
Lemma addUseCase_matches_witness :
  let requirements :=
    {| Profile.req_performance := None; Profile.req_memory := None;
       Profile.req_startupTime := None; Profile.req_ecosystem := None;
       Profile.req_concurrency := None;
       Profile.req_useCase := Some "api"%string;
       Profile.req_useCaseWeight := None |} in
  Profile.matches (Profile.addUseCase "api" 1 Profile.goProfile) requirements
  = Profile.matches Profile.goProfile requirements.
Proof.
  intros requirements.
  apply (proj1 (addUseCase_matches Profile.goProfile "api" 1 requirements)).
  left. discriminate.
Defined.

(** ** The best score on rationals *)

Section BestScore.
Import Profile.
Variable requirements : Requirements.



End BestScore.




(** X5.  The score that [findBestLanguageForRequirements] returns is
    never [NaN], never below -1 and never below the score of a profile of
    the registry; it is -1 with no language, or the score of a profile of
    the registry returned under its name. *)
Theorem findBest_maximal
    (registry : list (string * Ranking.LanguageProfile))
    (requirements : Ranking.Requirements) :
  let result :=
    Ranking.findBestLanguageForRequirements registry requirements in
  Ranking.score result ≠ Double.NaN
  ∧ Double.lt (Ranking.score result) (Double.ofZ (-1)) = false
  ∧ Forall (λ e, Double.lt (Ranking.score result)
                   (Ranking.matches e.2 requirements) = false) registry
  ∧ ((Ranking.language result = None
      ∧ Ranking.score result = Double.ofZ (-1))
     ∨ ∃ e, e ∈ registry
            ∧ Ranking.language result = Some e.1
            ∧ Ranking.score result = Ranking.matches e.2 requirements).
Proof.
  cbn zeta. unfold Ranking.findBestLanguageForRequirements.
  destruct (fold_visit_upper requirements (Ranking.entries registry)
              (Double.ofZ (-1), None)) as (Hnan & Hup & Hall); [done|].
  rewrite (entries_Permutation registry) in Hall.
  destruct (fold_visit_cases requirements (Ranking.entries registry)
              (Double.ofZ (-1), None))
    as [[_ Heq]|(e & He & Heq & _)]; rewrite Heq in *;
    cbn [Ranking.language Ranking.score Ranking.profile fst snd] in *.
  - split_and!; [done|done|done|]. by left.
  - split_and!; [done|done|done|]. right. exists e.
    by rewrite <- (entries_Permutation registry).
Qed.

(** X7.  Registering one more profile, under a new name that is not an
    array index, changes the result only when the newcomer scores
    strictly more than the best so far, and then the newcomer is the
    language returned. *)
Theorem findBest_register
    (registry : list (string * Ranking.LanguageProfile))
    (entry : string * Ranking.LanguageProfile)
    (requirements : Ranking.Requirements) :
  Ranking.arrayIndex entry.1 = None →
  let before :=
    Ranking.findBestLanguageForRequirements registry requirements in
  let after :=
    Ranking.findBestLanguageForRequirements (registry ++ [entry])
      requirements in
  (Double.lt (Ranking.score before) (Ranking.matches entry.2 requirements)
   = false →
   after = before)
  ∧ (Double.lt (Ranking.score before) (Ranking.matches entry.2 requirements)
     = true →
     Ranking.language after = Some entry.1
     ∧ Ranking.score after = Ranking.matches entry.2 requirements).
Proof.
  intros Hname. cbn zeta. unfold Ranking.findBestLanguageForRequirements.
  rewrite (entries_snoc _ _ Hname), fold_left_app. cbn [fold_left].
  destruct (fold_visit_cases requirements (Ranking.entries registry)
              (Double.ofZ (-1), None))
    as [[_ Heq]|(e & He & Heq & _)]; rewrite Heq;
    cbn [Ranking.language Ranking.score Ranking.profile fst snd];
    unfold Ranking.visit; cbn [fst snd].
  - split; by intros ->.
  - split; intros ->; [|done].
    cbn [Ranking.language Ranking.score Ranking.profile fst snd]. f_equal.
    destruct (Ranking.truthy_string (Some e.1)); [|done]. cbn.
    apply lookupProfile_app. apply list_elem_of_fmap. exists e.
    split; [done|]. by rewrite <- (entries_Permutation registry).
Qed.

(** The builtin registry without rust, then rust registered: on the
    query for performance rust scores 10, above the 8 of go. *)
Lemma findBest_register_witness :
  let requirements :=
    {| Ranking.req_performance := Some {| Ranking.weight := Double.ofZ 1 |};
       Ranking.req_memory := None; Ranking.req_startupTime := None;
       Ranking.req_ecosystem := None; Ranking.req_concurrency := None;
       Ranking.req_useCase := None; Ranking.req_useCaseWeight := None |} in
  Ranking.language
    (Ranking.findBestLanguageForRequirements Ranking.profiles requirements)
  = Some "rust"%string.
Proof.
  intros requirements.
  refine (proj1 (proj2 (findBest_register
                          [("javascript"%string, Ranking.javascriptProfile);
                           ("python"%string, Ranking.pythonProfile);
                           ("go"%string, Ranking.goProfile)]
                          ("rust"%string, Ranking.rustProfile)
                          requirements eq_refl) _)).
  by vm_compute.
Defined.

(** ** The command [languages] *)

Section Languages.
Import Profile Cli.

Lemma insertByScore_Permutation a l : insertByScore a l ≡ₚ a :: l.
Proof.
  induction l as [|b l IH]; simpl; [done|].
  destruct (Qlt_bool _ _); [|done]. rewrite IH. apply Permutation_swap.
Qed.

Lemma sortByScore_Permutation l : sortByScore l ≡ₚ l.
Proof.
  induction l as [|a l IH]; simpl; [done|].
  by rewrite insertByScore_Permutation, IH.
Qed.

Lemma insertByScore_sorted a l :
  StronglySorted atLeast l → StronglySorted atLeast (insertByScore a l).
Proof.
  induction 1 as [|b l Hl IH Hb]; simpl; [by repeat constructor|].
  destruct (Qlt_bool (uc_score a) (uc_score b)) eqn:E.
  - apply Qlt_bool_iff in E. constructor; [done|].
    rewrite insertByScore_Permutation. constructor; [|done].
    by apply Qlt_le_weak.
  - apply Qlt_bool_false in E. constructor; [by constructor|].
    constructor; [done|]. eapply Forall_impl; [exact Hb|].
    intros c Hc. unfold atLeast in *. by eapply Qle_trans.
Qed.

Lemma sortByScore_sorted l : StronglySorted atLeast (sortByScore l).
Proof.
  induction l as [|a l IH]; simpl; [constructor|].
  by apply insertByScore_sorted.
Qed.

(** The sort is stable: an element put in goes before those of its
    score. *)
Lemma scoring_insertByScore s a l :
  scoring s (insertByScore a l) = scoring s (a :: l).
Proof.
  unfold scoring. induction l as [|b l IH]; simpl; [done|].
  destruct (Qlt_bool (uc_score a) (uc_score b)) eqn:E; [|done].
  simpl in *. rewrite IH.
  destruct (Qeq_bool (uc_score a) s) eqn:Ea; [|done].
  destruct (Qeq_bool (uc_score b) s) eqn:Eb; [|done].
  apply Qeq_bool_eq in Ea, Eb. apply Qlt_bool_iff in E.
  rewrite Ea, Eb in E. by apply Qlt_irrefl in E.
Qed.

Lemma scoring_sortByScore s l : scoring s (sortByScore l) = scoring s l.
Proof.
  induction l as [|a l IH]; simpl; [done|].
  rewrite scoring_insertByScore. unfold scoring in *. simpl. by rewrite IH.
Qed.

(** With distinct names, the first use case of a name is the same in any
    order of the list. *)
Lemma find_name_Permutation u (l l' : list UseCase) :
  l ≡ₚ l' → NoDup (uc_name <$> l) →
  find (λ uc, String.eqb (uc_name uc) u) l
  = find (λ uc, String.eqb (uc_name uc) u) l'.
Proof.
  induction 1 as [|x l l' Hperm IH|x y l|l l' l'' H1 IH1 H2 IH2];
    intros Hnd; simpl.
  - done.
  - destruct (String.eqb _ _); [done|]. apply IH.
    by apply NoDup_cons in Hnd as [_ ?].
  - destruct (String.eqb_spec (uc_name x) u) as [Hx|Hx];
      destruct (String.eqb_spec (uc_name y) u) as [Hy|Hy]; try done.
    simpl in Hnd. apply NoDup_cons in Hnd as [Hnin _].
    destruct Hnin. rewrite Hy, <- Hx. left.
  - rewrite IH1 by done. apply IH2. by rewrite <- H1.
Qed.

Lemma matches_sorted this requirements :
  NoDup (uc_name <$> useCases this) →
  matches (sorted this) requirements = matches this requirements.
Proof.
  intros Hnd. unfold matches, accumulateUseCase. simpl.
  by rewrite (find_name_Permutation _ (sortByScore (useCases this))
                (useCases this) (sortByScore_Permutation _))
    by by rewrite sortByScore_Permutation.
Qed.

Lemma fold_visit_sorted requirements profiles best :
  Forall (λ e, NoDup (uc_name <$> useCases e.2)) profiles →
  fold_left (visit requirements)
    ((λ entry, (entry.1, sorted entry.2)) <$> profiles) best
  = fold_left (visit requirements) profiles best.
Proof.
  intros Hall. revert best.
  induction Hall as [|e rest He _ IH]; intros best; simpl; [done|].
  rewrite IH. f_equal. unfold visit. simpl. by rewrite matches_sorted.
Qed.

End Languages.

Section Listings.
Import Profile Cli.

Lemma sortByScore_fixed l : StronglySorted atLeast l → sortByScore l = l.
Proof.
  induction 1 as [|a l Hl IH Ha]; simpl; [done|]. rewrite IH.
  destruct Ha as [|b l Hb _]; simpl; [done|].
  by rewrite (proj2 (Qlt_bool_false _ _) Hb).
Qed.

Lemma lookupProfile_sorted n profiles :
  lookupProfile n ((λ entry, (entry.1, sorted entry.2)) <$> profiles)
  = sorted <$> lookupProfile n profiles.
Proof.
  induction profiles as [|[m p] rest IH]; simpl; [done|].
  by destruct (String.eqb m n).
Qed.

End Listings.

(** X8.  For each entry of the registry in turn, the command
    [languages] lists the first three (or fewer, when the profile has
    fewer) of its use cases put in order of score: together with the use
    cases left out they are the profile's use cases rearranged, no score
    goes up along them, and use cases of one score keep the order they
    were added in. *)
Theorem languages_top_use_cases
    (profiles : list (string * Profile.LanguageProfile)) (i : nat)
    (n : string) (p : Profile.LanguageProfile) :
  profiles !! i = Some (n, p) →
  ∃ listing rest,
    (Cli.languages profiles).1 !! i = Some listing
    ∧ length (Cli.topUseCases listing)
      = Nat.min 3 (length (Profile.useCases p))
    ∧ Cli.topUseCases listing ++ rest ≡ₚ Profile.useCases p
    ∧ StronglySorted Cli.atLeast (Cli.topUseCases listing ++ rest)
    ∧ ∀ s, Cli.scoring s (Cli.topUseCases listing ++ rest)
           = Cli.scoring s (Profile.useCases p).
Proof.
  intros Hi. eexists _, (drop 3 (Cli.sortByScore (Profile.useCases p))).
  unfold Cli.languages. cbn [fst]. rewrite list_lookup_fmap, Hi.
  split; [reflexivity|].
  cbn [Cli.title Cli.topUseCases fst snd].
  rewrite take_drop. split_and!.
  - rewrite length_take.
    by rewrite (Permutation_length (sortByScore_Permutation _)).
  - apply sortByScore_Permutation.
  - apply sortByScore_sorted.
  - intros s. apply scoring_sortByScore.
Qed.

Lemma languages_top_use_cases_witness :
  ∃ listing rest,
    (Cli.languages Profile.profiles).1 !! 2%nat = Some listing
    ∧ length (Cli.topUseCases listing)
      = Nat.min 3 (length (Profile.useCases Profile.goProfile))
    ∧ Cli.topUseCases listing ++ rest
      ≡ₚ Profile.useCases Profile.goProfile
    ∧ StronglySorted Cli.atLeast (Cli.topUseCases listing ++ rest)
    ∧ ∀ s, Cli.scoring s (Cli.topUseCases listing ++ rest)
           = Cli.scoring s (Profile.useCases Profile.goProfile).
Proof.
  exact (languages_top_use_cases Profile.profiles 2 "go" Profile.goProfile
           eq_refl).
Defined.

(** X9.  The sort of [languages] works in place, on the registry's own
    profiles.  When the use cases of every profile have distinct names,
    this changes no result of the search for the best language: the
    language and the score found after the command are those found before
    it, and the profile returned is the one returned before, with its use
    cases sorted. *)
Theorem languages_keeps_best
    (profiles : list (string * Profile.LanguageProfile))
    (requirements : Profile.Requirements) :
  Forall (λ entry, NoDup (Profile.uc_name <$> Profile.useCases entry.2))
    profiles →
  let before :=
    Profile.findBestLanguageForRequirements profiles requirements in
  let after :=
    Profile.findBestLanguageForRequirements
      (Cli.languages profiles).2 requirements in
  Profile.language after = Profile.language before
  ∧ Profile.score after = Profile.score before
  ∧ Profile.profile after = Cli.sorted <$> Profile.profile before.
Proof.
  intros Hall. cbn zeta.
  unfold Profile.findBestLanguageForRequirements, Cli.languages. cbn [snd].
  rewrite (fold_visit_sorted _ _ _ Hall).
  destruct (fold_left _ _ _) as [bestScore bestLanguage].
  cbn [Profile.language Profile.score Profile.profile].
  split_and!; [done|done|].
  rewrite lookupProfile_sorted. by destruct (Profile.truthy_string _).
Qed.

Lemma languages_keeps_best_witness :
  let requirements :=
    {| Profile.req_performance := Some {| Profile.weight := 2 |};
       Profile.req_memory := None;
       Profile.req_startupTime := None;
       Profile.req_ecosystem := None;
       Profile.req_concurrency := None;
       Profile.req_useCase := Some "api-services"%string;
       Profile.req_useCaseWeight := None |} in
  let before :=
    Profile.findBestLanguageForRequirements Profile.profiles requirements in
  let after :=
    Profile.findBestLanguageForRequirements
      (Cli.languages Profile.profiles).2 requirements in
  Profile.language after = Profile.language before
  ∧ Profile.score after = Profile.score before
  ∧ Profile.profile after = Cli.sorted <$> Profile.profile before.
Proof.
  intros requirements.
  apply (languages_keeps_best Profile.profiles requirements).
  unfold Profile.profiles.
  repeat (apply Forall_cons_2;
          [cbv beta; apply (bool_decide_unpack _); vm_compute; exact I|]).
  apply Forall_nil_2.
Defined.

(** X10.  Running [languages] a second time lists what the first run
    listed and leaves the registry as the first run left it: sorted use
    cases stay as they are. *)
Theorem languages_again
    (profiles : list (string * Profile.LanguageProfile)) :
  Cli.languages (Cli.languages profiles).2 = Cli.languages profiles.
Proof.
  unfold Cli.languages. cbn [snd]. f_equal.
  - rewrite <- list_fmap_compose. apply list_fmap_ext.
    intros _ [n p] _. simpl.
    by rewrite (sortByScore_fixed _ (sortByScore_sorted _)).
  - rewrite <- list_fmap_compose. apply list_fmap_ext.
    intros _ [n p] _. unfold Cli.sorted. simpl.
    by rewrite (sortByScore_fixed _ (sortByScore_sorted _)).
Qed.

(** ** Documents that agree, and what a merge keeps *)

Section Within.
Import Config Save.

Lemma within_objects (part whole : gmap string value) :
  within (VObj part) (VObj whole)
  ↔ ∀ key child,
      part !! key = Some child →
      ∃ counterpart,
        whole !! key = Some counterpart
        ∧ (if isObject child then within child counterpart
           else child = counterpart).
Proof.
  simpl.
  apply (map_fold_weak_ind
           (λ P (visited : gmap string value),
              P ↔ ∀ key child,
                    visited !! key = Some child →
                    ∃ counterpart,
                      whole !! key = Some counterpart
                      ∧ (if isObject child then within child counterpart
                         else child = counterpart))).
  - split; [|done]. intros _ key child. by rewrite lookup_empty.
  - intros k v visited P Hk IH. split.
    + destruct (whole !! k) as [counterpart|] eqn:Hw; [|done].
      intros [Hv HP] key child. destruct (decide (k = key)) as [->|Hne].
      * rewrite lookup_insert_eq. intros [= <-]. by exists counterpart.
      * rewrite lookup_insert_ne by done. by apply IH.
    + intros Hall.
      destruct (Hall k v) as (counterpart & -> & Hv);
        [by rewrite lookup_insert_eq|].
      split; [done|]. apply IH. intros key child Hkey. apply Hall.
      rewrite lookup_insert_ne; [done|]. intros ->. by rewrite Hk in Hkey.
Qed.

Lemma within_is_object part whole :
  within part whole → isObject part = true ∧ isObject whole = true.
Proof. by destruct part, whole. Qed.

Lemma deepMerge_within_depth (n : nat) :
  ∀ part whole,
    (depth part < n)%nat → within part whole → deepMerge whole part = whole.
Proof.
  induction n as [|n IH]; intros part whole Hn Hin; [lia|].
  destruct (within_is_object _ _ Hin) as [Hp Hw].
  destruct part as [| | | | | |part]; try done.
  destruct whole as [| | | | | |whole]; try done.
  assert (∃ merged, deepMerge (VObj whole) (VObj part) = VObj merged)
    as [merged Hm] by (rewrite deepMerge_objects; eauto).
  rewrite Hm. f_equal. apply map_eq. intros key.
  replace merged with (ownProperties (deepMerge (VObj whole) (VObj part)))
    by by rewrite Hm.
  rewrite deepMerge_lookup.
  destruct (part !! key) as [child|] eqn:Hkey; [|done].
  destruct (proj1 (within_objects _ _) Hin key child Hkey)
    as (counterpart & -> & Hc).
  f_equal. destruct (isObject child); [|done].
  apply IH; [|done]. apply depth_lookup in Hkey. lia.
Qed.

Lemma within_refl_depth (n : nat) :
  ∀ properties : gmap string value,
    (depth (VObj properties) < n)%nat →
    within (VObj properties) (VObj properties).
Proof.
  induction n as [|n IH]; intros properties Hn; [lia|].
  apply within_objects. intros key child Hkey. exists child.
  split; [done|]. destruct child; try done.
  apply IH. apply depth_lookup in Hkey. lia.
Qed.

End Within.

(** X11.  For a source none of whose keys is a name inherited from
    [Object.prototype], [deepMerge] returns a plain object and removes no
    key: every own key of the target is a key of the result, and for two
    plain objects the keys of the result are those of the target together
    with those of the source. *)
Theorem deepMerge_keys (target source : Config.value) :
  Config.ownNames source = true →
  ∃ output,
    Config.deepMerge target source = Config.VObj output
    ∧ dom (Config.ownProperties target) ⊆ dom output
    ∧ (Config.isObject target = true → Config.isObject source = true →
       dom output
       = dom (Config.ownProperties target)
         ∪ dom (Config.ownProperties source)).
Proof.
  intros _.
  destruct (Config.isObject target && Config.isObject source) eqn:Hobj.
  - apply andb_true_iff in Hobj as [Ht Hs].
    destruct target as [| | | | | |t]; try done.
    destruct source as [| | | | | |s]; try done.
    assert (∀ key,
              key ∈ dom (Config.ownProperties
                           (Config.deepMerge (Config.VObj t) (Config.VObj s)))
              ↔ key ∈ dom t ∪ dom s) as Hdom.
    { intros key. rewrite elem_of_union, !elem_of_dom, deepMerge_lookup.
      destruct (s !! key) as [v|].
      - split; [intros _; right; eauto | eauto].
      - split; [by left | by intros [?|[? [=]]]]. }
    rewrite deepMerge_objects in Hdom |- *. eexists. split; [done|].
    cbn [Config.ownProperties] in Hdom |- *. split.
    + intros key Hkey. apply Hdom, elem_of_union. by left.
    + intros _ _. apply set_eq. intros key. apply Hdom.
  - rewrite (deepMerge_not_object _ _ Hobj). eexists. split; [done|].
    split; [done|]. intros Ht Hs. by rewrite Ht, Hs in Hobj.
Qed.

(** The defaults and a file with a section of its own. *)
Lemma deepMerge_keys_witness :
  ∃ output,
    Config.deepMerge (Config.defaults Config.VUndefined)
      (Config.VObj {[ "cache" := Config.VObj {[ "ttl" := Config.VNum 60 ]} ]})
    = Config.VObj output
    ∧ dom output = {[ "llm"; "languages"; "paths"; "cache" ]}.
Proof.
  destruct (deepMerge_keys (Config.defaults Config.VUndefined)
              (Config.VObj
                 {[ "cache" := Config.VObj {[ "ttl" := Config.VNum 60 ]} ]}))
    as (output & Hmerge & _ & Hdom); [by vm_compute|].
  exists output. split; [exact Hmerge|].
  rewrite (Hdom eq_refl eq_refl). by vm_compute.
Defined.

(** X12.  Merging into a document a document that says nothing new (each
    of its keys holds what the document holds there, or a mapping that is
    part of the mapping held there) gives the document back. *)
Theorem deepMerge_within (part : Config.value)
    (whole : gmap string Config.value) :
  Save.within part (Config.VObj whole) →
  Config.deepMerge (Config.VObj whole) part = Config.VObj whole.
Proof.
  intros Hin.
  apply (deepMerge_within_depth (S (Config.depth part))); [lia|done].
Qed.

Lemma deepMerge_within_witness :
  Config.deepMerge (Config.defaults Config.VUndefined)
    (Config.VObj
       {[ "llm" := Config.VObj {[ "model" := Config.VStr "gpt-4" ]} ]})
  = Config.defaults Config.VUndefined.
Proof.
  apply (deepMerge_within
           (Config.VObj
              {[ "llm" := Config.VObj {[ "model" := Config.VStr "gpt-4" ]} ]})
           (Config.ownProperties (Config.defaults Config.VUndefined))).
  vm_compute. by repeat split.
Defined.

(** X13.  Merging a plain object with itself, or with the empty object
    as the source, changes nothing; merging it into the empty object
    gives it back when none of its keys is a name inherited from
    [Object.prototype]. *)
Theorem deepMerge_idempotent (properties : gmap string Config.value) :
  Config.deepMerge (Config.VObj properties) (Config.VObj properties)
  = Config.VObj properties
  ∧ Config.deepMerge (Config.VObj properties) (Config.VObj ∅)
    = Config.VObj properties
  ∧ (Config.ownNames (Config.VObj properties) = true →
     Config.deepMerge (Config.VObj ∅) (Config.VObj properties)
     = Config.VObj properties).
Proof.
  split_and!; [| |intros _].
  - apply (deepMerge_within_depth (S (Config.depth (Config.VObj properties))));
      [lia|].
    apply (within_refl_depth (S (Config.depth (Config.VObj properties)))).
    lia.
  - done.
  - assert (∃ merged,
              Config.deepMerge (Config.VObj ∅) (Config.VObj properties)
              = Config.VObj merged) as [merged Hm]
      by (rewrite deepMerge_objects; eauto).
    rewrite Hm. f_equal. apply map_eq. intros key.
    replace merged
      with (Config.ownProperties
              (Config.deepMerge (Config.VObj ∅) (Config.VObj properties)))
      by by rewrite Hm.
    rewrite deepMerge_lookup, lookup_empty.
    destruct (properties !! key) as [v|]; [|done]. by destruct v.
Qed.

(** X14.  A file whose contents parse to something that is not a mapping
    ([null], as for an empty YAML file, an array, a string, a number, a
    boolean) is reported as loaded, and the document is left as it was. *)
Theorem loadFromFile_non_mapping
    (env : Config.Environment) (configPath fileContents : string)
    (properties : gmap string Config.value) (loaded : Config.value) :
  Config.readFileSync env configPath = inr fileContents →
  Config.parse env (Config.toLowerCase (Config.extname env configPath))
    fileContents
  = Config.Returns loaded →
  Config.isObject loaded = false →
  Config.loadFromFile env (Config.VObj properties) configPath
  = Config.Returns (Config.VObj properties, true).
Proof.
  intros Hread Hparse Hloaded.
  rewrite (loadFromFile_parsed env _ _ _ _ Hread Hparse).
  by rewrite deepMerge_not_object by by rewrite Hloaded, andb_false_r.
Qed.

Lemma loadFromFile_non_mapping_witness :
  let env :=
    {| Config.readFileSync := λ _, inr ""%string;
       Config.extname := λ _, ".YAML"%string;
       Config.JSON_parse := λ _, inl Config.SyntaxError;
       Config.yaml_parse := λ _, inr Config.VNull |} in
  Config.loadFromFile env (Config.defaults Config.VUndefined) "empty.YAML"
  = Config.Returns (Config.defaults Config.VUndefined, true).
Proof.
  intros env.
  exact (loadFromFile_non_mapping env "empty.YAML" ""
           (Config.ownProperties (Config.defaults Config.VUndefined))
           Config.VNull eq_refl eq_refl eq_refl).
Defined.

(** ** Reading and writing by path *)

Section NullFree.
Import Config Save.

Lemma nullFree_object (properties : gmap string value) :
  nullFree (VObj properties) = true
  ↔ ∀ key child, properties !! key = Some child → nullFree child = true.
Proof.
  simpl.
  apply (map_fold_weak_ind
           (λ b (visited : gmap string value),
              b = true
              ↔ ∀ key child,
                  visited !! key = Some child → nullFree child = true)).
  - split; [|done]. intros _ key child. by rewrite lookup_empty.
  - intros k v visited b Hk IH. rewrite andb_true_iff, IH. split.
    + intros [Hv Hall] key child. destruct (decide (k = key)) as [->|Hne].
      * rewrite lookup_insert_eq. by intros [= <-].
      * rewrite lookup_insert_ne by done. apply Hall.
    + intros Hall. split.
      * apply (Hall k). by rewrite lookup_insert_eq.
      * intros key child Hkey. apply (Hall key).
        rewrite lookup_insert_ne; [done|]. intros ->. by rewrite Hk in Hkey.
Qed.

Lemma nullFree_ownProperties v key child :
  nullFree v = true → ownProperties v !! key = Some child →
  nullFree child = true.
Proof.
  destruct v as [| | | |s|elements|properties]; cbn [ownProperties];
    try (by rewrite lookup_empty).
  - intros _ (i & _ & Hi)%lookup_indexed. unfold characters in Hi.
    rewrite list_lookup_fmap in Hi.
    by destruct (String.list_ascii_of_string s !! i); simplify_eq/=.
  - intros Hall (i & _ & Hi)%lookup_indexed. cbn [nullFree] in Hall.
    rewrite forallb_forall in Hall. apply Hall.
    apply list_elem_of_In. by eapply list_elem_of_lookup_2.
  - intros Hall. by apply nullFree_object.
Qed.

Lemma nullFree_getProp v k :
  v ≠ VUndefined → nullFree v = true →
  getProp v k = Unmodelled
  ∨ ∃ next, getProp v k = Returns next ∧ nullFree next = true.
Proof.
  intros Hv Hfree. unfold getProp.
  destruct (ownProperties v !! k) as [x|] eqn:Hk.
  - right. exists x. split; [by destruct v|].
    by apply (nullFree_ownProperties v k).
  - destruct v; try done; cbn [absent];
      repeat match goal with
             | |- context [if ?b then _ else _] => destruct b
             end;
      first [by left | right; by eexists].
Qed.

Lemma nullFree_walk keys :
  ∀ v, v ≠ VUndefined → nullFree v = true →
  walk keys v = Unmodelled
  ∨ ∃ result, walk keys v = Returns result ∧ nullFree result = true.
Proof.
  induction keys as [|k keys IH]; intros v Hv Hfree;
    [right; by exists v|].
  cbn [walk].
  destruct (nullFree_getProp v k Hv Hfree) as [->|(next & -> & Hnext)];
    [by left|].
  cbn [mbind outcome_bind].
  destruct next; try done; try (by apply IH). right. by exists VUndefined.
Qed.

End NullFree.

(** X15.  [get] throws only on its way through a [null]: on a plain
    object from which no [null] is reached, a [get] whose reads stay
    with own properties and with names that nothing has (those that the
    embedding covers) returns, and what it returns holds no [null]
    either. *)
Theorem get_null_free (config : Config.value) (key : string) :
  Config.isObject config = true →
  Save.nullFree config = true →
  Config.get config key = Config.Unmodelled
  ∨ ∃ result,
      Config.get config key = Config.Returns result
      ∧ Save.nullFree result = true.
Proof.
  intros Hobj Hfree. apply nullFree_walk; [|done]. by destruct config.
Qed.

Lemma get_null_free_witness :
  ∃ result,
    Config.get (Config.defaults Config.VUndefined) "languages.go.useCase.7"
    = Config.Returns result
    ∧ Save.nullFree result = true.
Proof.
  destruct (get_null_free (Config.defaults Config.VUndefined)
              "languages.go.useCase.7") as [H|H];
    [by vm_compute | by vm_compute | | exact H].
  by vm_compute in H.
Defined.

(** ** Saving the document *)

Section Saving.
Import Config Save.

Lemma stringify_unsupported out extension config :
  extension ∉ [".json"; ".yml"; ".yaml"]%string →
  stringify out extension config = Throws (UnsupportedFormat extension).
Proof.
  intros Hext. unfold stringify.
  destruct (String.eqb_spec extension ".json") as [->|_].
  { destruct Hext. by left. }
  rewrite bool_decide_eq_false_2; [done|].
  intros Hin. apply Hext. by right.
Qed.

(** The parser chosen for an extension reads what the serializer chosen
    for it wrote, when each parser does for its serializer. *)
Lemma parse_stringify out env extension config contents :
  (∀ s, JSON_stringify out config = inr s →
        ∃ loaded, Config.JSON_parse env s = inr loaded
                  ∧ within loaded config) →
  (∀ s, yaml_stringify out config = inr s →
        ∃ loaded, Config.yaml_parse env s = inr loaded
                  ∧ within loaded config) →
  stringify out extension config = Returns contents →
  ∃ loaded,
    parse env extension contents = Returns loaded ∧ within loaded config.
Proof.
  intros Hjson Hyaml. unfold stringify, parse.
  destruct (String.eqb extension ".json").
  - destruct (JSON_stringify out config) as [e|s] eqn:Hs; [done|].
    intros [= <-]. destruct (Hjson s eq_refl) as (loaded & -> & Hin).
    by exists loaded.
  - destruct (bool_decide _); [|done].
    destruct (yaml_stringify out config) as [e|s] eqn:Hs; [done|].
    intros [= <-]. destruct (Hyaml s eq_refl) as (loaded & -> & Hin).
    by exists loaded.
Qed.

End Saving.

(** X17.  [saveToFile] writes at most once, to the path given, the
    document as serialized for the extension of the path in lower case; it
    returns [true] only if that write was made and returned; for an
    extension other than [.json], [.yml] and [.yaml] it returns [false]
    and writes nothing. *)
Theorem saveToFile_writes (out : Save.Output) (config : Config.value)
    (configPath : string) :
  let extension := Config.toLowerCase (Save.extname out configPath) in
  let result := Save.saveToFile out config configPath in
  (∀ w, w ∈ result.2 →
        result.2 = [w] ∧ w.1 = configPath
        ∧ Save.stringify out extension config = Config.Returns w.2)
  ∧ (result.1 = true →
     ∃ fileContents,
       result.2 = [(configPath, fileContents)]
       ∧ Save.writeFileSync out configPath fileContents = inr tt)
  ∧ (extension ∉ [".json"; ".yml"; ".yaml"]%string →
     result = (false, [])).
Proof.
  cbn zeta. unfold Save.saveToFile. split_and!.
  - destruct (Save.stringify _ _ _) as [fileContents| |]; cbn [snd];
      intros w Hw; [|by apply elem_of_nil in Hw..].
    apply list_elem_of_singleton in Hw as ->. done.
  - destruct (Save.stringify _ _ _) as [fileContents| |]; cbn [fst snd];
      [|done..].
    destruct (Save.writeFileSync _ _ _) as [e|[]] eqn:Hw; [done|].
    intros _. by exists fileContents.
  - intros Hext. by rewrite (stringify_unsupported _ _ _ Hext).
Qed.

(** X18.  On a file system that keeps what is written, with parsers that
    read what the serializers write (up to properties left out, as
    [JSON.stringify] leaves out those that are [undefined]): after a
    [saveToFile] that returned [true], [loadFromFile] on the same path
    returns [true] and leaves the document as it is. *)
Theorem saveToFile_loadFromFile
    (out : Save.Output)
    (JSON_parse yaml_parse : string → Config.error + Config.value)
    (files : gmap string string)
    (properties : gmap string Config.value) (configPath : string)
    (writes : list (string * string)) :
  (∀ s, Save.JSON_stringify out (Config.VObj properties) = inr s →
        ∃ loaded, JSON_parse s = inr loaded
                  ∧ Save.within loaded (Config.VObj properties)) →
  (∀ s, Save.yaml_stringify out (Config.VObj properties) = inr s →
        ∃ loaded, yaml_parse s = inr loaded
                  ∧ Save.within loaded (Config.VObj properties)) →
  Save.saveToFile out (Config.VObj properties) configPath = (true, writes) →
  Config.loadFromFile
    (Save.reading (Save.written files writes) (Save.extname out)
       JSON_parse yaml_parse)
    (Config.VObj properties) configPath
  = Config.Returns (Config.VObj properties, true).
Proof.
  intros Hjson Hyaml. unfold Save.saveToFile.
  destruct (Save.stringify _ _ _) as [fileContents| |] eqn:Hs; [|done..].
  intros [= _ <-].
  destruct (parse_stringify out
              (Save.reading (Save.written files [(configPath, fileContents)])
                 (Save.extname out) JSON_parse yaml_parse)
              _ _ _ Hjson Hyaml Hs) as (loaded & Hparse & Hin).
  rewrite (loadFromFile_parsed _ _ _ fileContents loaded).
  - do 2 f_equal.
    apply (deepMerge_within_depth (S (Config.depth loaded))); [lia|done].
  - cbn. by rewrite lookup_insert_eq.
  - exact Hparse.
Qed.

Lemma saveToFile_loadFromFile_witness :
  let out :=
    {| Save.extname := λ _, ".JSON"%string;
       Save.JSON_stringify := λ _, inr "{}"%string;
       Save.yaml_stringify := λ _, inl Config.SystemError;
       Save.writeFileSync := λ _ _, inr tt |} in
  let JSON_parse := λ _ : string,
    inr (Config.VObj
           {[ "llm" := Config.VObj
                         {[ "provider" := Config.VStr "openai" ]} ]})
    : Config.error + Config.value in
  let yaml_parse := λ _ : string,
    inl Config.SyntaxError : Config.error + Config.value in
  Config.loadFromFile
    (Save.reading
       (Save.written ∅ [("polyfunc.JSON"%string, "{}"%string)])
       (Save.extname out) JSON_parse yaml_parse)
    (Config.defaults Config.VUndefined) "polyfunc.JSON"
  = Config.Returns (Config.defaults Config.VUndefined, true).
Proof.
  intros out JSON_parse yaml_parse.
  apply (saveToFile_loadFromFile out JSON_parse yaml_parse ∅
           (Config.ownProperties (Config.defaults Config.VUndefined))
           "polyfunc.JSON" [("polyfunc.JSON"%string, "{}"%string)]).
  - intros s _. eexists. split; [reflexivity|]. vm_compute. by repeat split.
  - intros s [=].
  - reflexivity.
Defined.

(** ** The client of the language model *)

Section Asking.
Import Config Client.

Lemma getClient_cases world this :
  match getClient world this with
  | (inr made, this') =>
      client this' = Some made
      ∧ provider this' = provider this
      ∧ model this' = model this
      ∧ apiKey this' = apiKey this
  | (inl e, this') => this' = this ∧ client this = None
  end.
Proof.
  unfold getClient. destruct this as [p m a [made|]]; cbn; [done|].
  destruct (truthy a); [|done].
  by destruct (initializeClient world _).
Qed.

Lemma getClient_no_client world this :
  client this = None →
  truthy (apiKey this) = false ∨ provider this ≠ VStr "openai" →
  ∃ e, getClient world this = (inl e, this).
Proof.
  intros Hnone Hwhy. unfold getClient. rewrite Hnone.
  destruct (truthy (apiKey this)) eqn:Hkey; [|by eexists].
  destruct Hwhy as [|Hprovider]; [done|].
  unfold initializeClient.
  destruct (provider this) as [| | | |name| |]; try (by eexists).
  destruct (String.eqb_spec name "openai") as [->|_]; [done|by eexists].
Qed.

Lemma ask_no_client world prompt t this :
  client this = None →
  truthy (apiKey this) = false ∨ provider this ≠ VStr "openai" →
  ask world prompt t this = (VNull, this, []).
Proof.
  intros Hnone Hwhy. unfold ask.
  by destruct (getClient_no_client world this Hnone Hwhy) as [e ->].
Qed.

End Asking.

(** X19.  [getClient] makes a client at most once.  When it returns, the
    client returned is kept, the other fields are as they were, and every
    later call returns this same client whatever the key and the provider
    are by then, without making another; when it throws, the object is as
    it was, with no client. *)
Theorem getClient_cached (world : Client.World) (this : Client.LLMClient) :
  match Client.getClient world this with
  | (inr made, this') =>
      Client.client this' = Some made
      ∧ Client.provider this' = Client.provider this
      ∧ Client.model this' = Client.model this
      ∧ Client.apiKey this' = Client.apiKey this
      ∧ ∀ world' provider model apiKey,
          Client.getClient world'
            {| Client.provider := provider; Client.model := model;
               Client.apiKey := apiKey; Client.client := Client.client this' |}
          = (inr made,
             {| Client.provider := provider; Client.model := model;
                Client.apiKey := apiKey;
                Client.client := Client.client this' |})
  | (inl e, this') => this' = this ∧ Client.client this = None
  end.
Proof.
  pose proof (getClient_cases world this) as Hcases.
  destruct (Client.getClient world this) as [[e|made] this']; [done|].
  destruct Hcases as (Hmade & Hp & Hm & Ha). split_and!; try done.
  intros world' provider model apiKey. unfold Client.getClient. cbn.
  by rewrite Hmade.
Qed.

(** X20.  With no client made yet, [getClient] throws for a falsy key
    (none, [null], the empty string, ...) the error that asks for the key,
    whatever the provider is; with a truthy key and a provider other than
    the string [openai] it throws the error that names the provider; in
    neither case is the constructor of the library called, and the object
    is left as it was. *)
Theorem getClient_throws (world : Client.World) (this : Client.LLMClient) :
  Client.client this = None →
  (Config.truthy (Client.apiKey this) = false →
   Client.getClient world this = (inl Client.ApiKeyRequired, this))
  ∧ (Config.truthy (Client.apiKey this) = true →
     Client.provider this ≠ Config.VStr "openai" →
     Client.getClient world this
     = (inl (Client.UnsupportedProvider (Client.provider this)), this))
  ∧ (Config.truthy (Client.apiKey this) = true →
     Client.provider this = Config.VStr "openai" →
     Client.getClient world this
     = match Client.OpenAI_new world (Client.apiKey this) with
       | inr made =>
           (inr made,
            {| Client.provider := Client.provider this;
               Client.model := Client.model this;
               Client.apiKey := Client.apiKey this;
               Client.client := Some made |})
       | inl e => (inl (Client.Raised e), this)
       end).
Proof.
  intros Hnone. unfold Client.getClient. rewrite Hnone. split_and!.
  - by intros ->.
  - intros -> Hprovider. unfold Client.initializeClient.
    destruct (Client.provider this) as [| | | |name| |]; try done.
    by destruct (String.eqb_spec name "openai") as [->|_].
  - intros -> Hprovider. unfold Client.initializeClient. rewrite Hprovider.
    cbn. by destruct (Client.OpenAI_new world _).
Qed.

Lemma getClient_throws_witness :
  let world :=
    {| Client.OpenAI_new := λ apiKey, inr {| Client.key := apiKey |};
       Client.create := λ _ _, inl Config.SystemError;
       Client.JSON_parse := λ _, inl Config.SyntaxError |} in
  let this :=
    {| Client.provider := Config.VStr "anthropic";
       Client.model := Config.VStr "gpt-4";
       Client.apiKey := Config.VStr "";
       Client.client := None |} in
  Client.getClient world this = (inl Client.ApiKeyRequired, this).
Proof.
  intros world this.
  exact (proj1 (getClient_throws world this eq_refl) eq_refl).
Defined.

(** X21.  Without a client, and with a falsy key or a provider other than
    the string [openai], each of [analyzeRequirements], [decomposeService]
    and [generateCode] is fulfilled with [null], sends no request and
    leaves the object as it was. *)
Theorem methods_without_client
    (world : Client.World) (prompts : Client.Prompts)
    (this : Client.LLMClient)
    (description language serviceName : string) :
  Client.client this = None →
  Config.truthy (Client.apiKey this) = false
  ∨ Client.provider this ≠ Config.VStr "openai" →
  Client.analyzeRequirements world prompts description this
  = (Config.VNull, this, [])
  ∧ Client.decomposeService world prompts description this
    = (Config.VNull, this, [])
  ∧ Client.generateCode world prompts language serviceName description this
    = (Config.VNull, this, []).
Proof.
  intros Hnone Hwhy.
  unfold Client.analyzeRequirements, Client.decomposeService,
    Client.generateCode.
  by rewrite !ask_no_client.
Qed.

Lemma methods_without_client_witness :
  let world :=
    {| Client.OpenAI_new := λ apiKey, inr {| Client.key := apiKey |};
       Client.create := λ _ _, inr Config.VNull;
       Client.JSON_parse := λ _, inr Config.VNull |} in
  let prompts :=
    {| Client.analyzePrompt := λ description, description;
       Client.decomposePrompt := λ description, description;
       Client.generatePrompt := λ _ _ description, description |} in
  let this :=
    {| Client.provider := Config.VStr "openai";
       Client.model := Config.VStr "gpt-4";
       Client.apiKey := Config.VUndefined;
       Client.client := None |} in
  Client.analyzeRequirements world prompts "a service" this
  = (Config.VNull, this, [])
  ∧ Client.decomposeService world prompts "a service" this
    = (Config.VNull, this, [])
  ∧ Client.generateCode world prompts "go" "service" "a service" this
    = (Config.VNull, this, []).
Proof.
  intros world prompts this.
  apply (methods_without_client world prompts this "a service" "go"
           "service" eq_refl).
  by left.
Defined.

(** X22.  A call of the body shared by the three methods sends at most
    one request, with the model of the object, the prompt as the one
    message, of role [user], and the temperature of the method; it changes
    of the object at most the client; and a result other than [null] is
    what [JSON.parse] returned for the content of the first choice of the
    response to that request. *)
Theorem ask_result (world : Client.World) (prompt : string) (t : Q)
    (this : Client.LLMClient) :
  let request :=
    {| Client.request_model := Client.model this;
       Client.messages := [("user"%string, prompt)];
       Client.temperature := t |} in
  ∃ result this' requests,
    Client.ask world prompt t this = (result, this', requests)
    ∧ (requests = [] ∨ requests = [request])
    ∧ Client.provider this' = Client.provider this
    ∧ Client.model this' = Client.model this
    ∧ Client.apiKey this' = Client.apiKey this
    ∧ (result ≠ Config.VNull →
       ∃ made response text,
         Client.client this' = Some made
         ∧ requests = [request]
         ∧ Client.create world made request = inr response
         ∧ Client.content response = Config.Returns text
         ∧ Client.JSON_parse world text = inr result).
Proof.
  cbn zeta. unfold Client.ask.
  pose proof (getClient_cases world this) as Hcases.
  destruct (Client.getClient world this) as [[e|made] this'].
  { destruct Hcases as [-> _]. eexists _, _, _. split; [done|].
    split_and!; try done. by left. }
  destruct Hcases as (Hmade & Hp & Hm & Ha). rewrite Hm.
  destruct (Client.create world made _) as [e|response] eqn:Hcreate.
  { eexists _, _, _. split; [done|].
    split_and!; try done. by right. }
  eexists _, _, _. split; [done|]. split_and!; try done; [by right|].
  intros Hresult. exists made, response.
  destruct (Client.content response) as [text| |];
    cbn [mbind Config.outcome_bind Config.try_catch] in Hresult |- *;
    try done.
  exists text. unfold Config.call in Hresult.
  destruct (Client.JSON_parse world text) as [e|parsed];
    cbn [Config.try_catch] in Hresult; [done|].
  by split_and!.
Qed.

(** X23.  The client made from the document of the constructor of
    [Config] has the provider [openai], the model [gpt-4] and the key of
    the environment; when that key is not set (or is empty), its
    [analyzeRequirements] is fulfilled with [null] and sends nothing. *)
Theorem constructor_defaults
    (world : Client.World) (prompts : Client.Prompts)
    (apiKey : Config.value) (description : string) :
  let this :=
    {| Client.provider := Config.VStr "openai";
       Client.model := Config.VStr "gpt-4";
       Client.apiKey := apiKey;
       Client.client := None |} in
  Client.constructor (Config.defaults apiKey) = Config.Returns this
  ∧ (Config.truthy apiKey = false →
     Client.analyzeRequirements world prompts description this
     = (Config.VNull, this, [])).
Proof.
  cbn zeta. split.
  - unfold Client.constructor.
    assert (Config.get (Config.defaults apiKey) "llm.provider"
            = Config.Returns (Config.VStr "openai")) as -> by by vm_compute.
    assert (Config.get (Config.defaults apiKey) "llm.model"
            = Config.Returns (Config.VStr "gpt-4")) as -> by by vm_compute.
    assert (Config.get (Config.defaults apiKey) "llm.apiKey"
            = Config.Returns apiKey) as ->; [|done].
    by destruct apiKey; vm_compute.
  - intros Hkey. unfold Client.analyzeRequirements.
    apply ask_no_client; [done|by left].
Qed.

Lemma ask_result_witness :
  let response :=
    Config.VObj
      {[ "choices" :=
           Config.VArr
             [Config.VObj
                {[ "message" :=
                     Config.VObj {[ "content" := Config.VStr "[]" ]} ]}] ]} in
  let world :=
    {| Client.OpenAI_new := λ apiKey, inr {| Client.key := apiKey |};
       Client.create := λ _ _, inr response;
       Client.JSON_parse := λ _, inr (Config.VArr []) |} in
  let this :=
    {| Client.provider := Config.VStr "openai";
       Client.model := Config.VStr "gpt-4";
       Client.apiKey := Config.VStr "sk-test";
       Client.client := None |} in
  ∃ result this' requests,
    Client.ask world "Decompose" (3 # 10) this = (result, this', requests)
    ∧ result = Config.VArr []
    ∧ ∃ made response text,
        Client.client this' = Some made
        ∧ length requests = 1%nat
        ∧ Client.create world made
            {| Client.request_model := Client.model this;
               Client.messages := [("user"%string, "Decompose"%string)];
               Client.temperature := 3 # 10 |}
          = inr response
        ∧ Client.content response = Config.Returns text
        ∧ Client.JSON_parse world text = inr result.
Proof.
  intros response world this.
  destruct (ask_result world "Decompose" (3 # 10) this)
    as (result & this' & requests & Hask & _ & _ & _ & _ & Hresult).
  exists result, this', requests. split; [exact Hask|].
  assert (result = Config.VArr []) as Hvalue.
  { assert (Client.ask world "Decompose" (3 # 10) this
            = (Config.VArr [],
               {| Client.provider := Config.VStr "openai";
                  Client.model := Config.VStr "gpt-4";
                  Client.apiKey := Config.VStr "sk-test";
                  Client.client :=
                    Some {| Client.key := Config.VStr "sk-test" |} |},
               [{| Client.request_model := Config.VStr "gpt-4";
                   Client.messages := [("user"%string, "Decompose"%string)];
                   Client.temperature := 3 # 10 |}])) as Hrun
      by by vm_compute.
    rewrite Hrun in Hask. by injection Hask as <- _ _. }
  split; [exact Hvalue|].
  destruct Hresult as (made & response' & text & Hmade & -> & Hrest);
    [by rewrite Hvalue|].
  by exists made, response', text.
Defined.

(** X24.  The two copies of [loadFromFile] on a file that holds a
    mapping none of whose keys is a name inherited from
    [Object.prototype]: the one that spreads the loaded document over the current one
    keeps each top-level key the file leaves out and takes each one the
    file names as a whole; the one that merges gives the same document
    whenever no mapping of the file sits on a key the document has. *)
Theorem loadFromFile_copies_agree
    (env : Config.Environment) (configPath fileContents : string)
    (properties loaded : gmap string Config.value) :
  Config.readFileSync env configPath = inr fileContents →
  Config.parse env (Config.toLowerCase (Config.extname env configPath))
    fileContents
  = Config.Returns (Config.VObj loaded) →
  Config.ownNames (Config.VObj loaded) = true →
  ∃ merged,
    Config.Spread.loadFromFile env (Config.VObj properties) configPath
    = Config.Returns (Config.VObj merged, true)
    ∧ (∀ key,
         merged !! key
         = match loaded !! key with
           | Some v => Some v
           | None => properties !! key
           end)
    ∧ ((∀ key v,
          loaded !! key = Some v → Config.isObject v = true →
          properties !! key = None) →
       Config.loadFromFile env (Config.VObj properties) configPath
       = Config.Returns (Config.VObj merged, true)).
Proof.
  intros Hread Hparse _. exists (loaded ∪ properties).
  assert (∀ key,
            (loaded ∪ properties) !! key
            = match loaded !! key with
              | Some v => Some v
              | None => properties !! key
              end) as Hunion.
  { intros key. destruct (loaded !! key) as [v|] eqn:Hkey.
    - by apply lookup_union_Some_l.
    - by apply lookup_union_r. }
  split_and!; [|done|].
  - unfold Config.Spread.loadFromFile. rewrite Hread.
    cbn [Config.call mbind Config.outcome_bind]. by rewrite Hparse.
  - intros Hflat.
    rewrite (loadFromFile_parsed env _ _ _ _ Hread Hparse). do 2 f_equal.
    assert (∃ merged,
              Config.deepMerge (Config.VObj properties) (Config.VObj loaded)
              = Config.VObj merged) as [merged Hm]
      by (rewrite deepMerge_objects; eauto).
    rewrite Hm. f_equal. apply map_eq. intros key.
    replace merged
      with (Config.ownProperties
              (Config.deepMerge (Config.VObj properties)
                 (Config.VObj loaded)))
      by by rewrite Hm.
    rewrite deepMerge_lookup, Hunion.
    destruct (loaded !! key) as [v|] eqn:Hkey; [|done].
    destruct (Config.isObject v) eqn:Hv; [|done].
    by rewrite (Hflat key v Hkey Hv).
Qed.

Lemma loadFromFile_copies_agree_witness :
  let env :=
    {| Config.readFileSync := λ _, inr "{}"%string;
       Config.extname := λ _, ".json"%string;
       Config.JSON_parse := λ _,
         inr (Config.VObj
                {[ "debug" := Config.VBool true;
                   "cache" := Config.VObj {[ "ttl" := Config.VNum 60 ]} ]});
       Config.yaml_parse := λ _, inl Config.SyntaxError |} in
  ∃ merged,
    Config.Spread.loadFromFile env (Config.defaults Config.VUndefined)
      "config.json"
    = Config.Returns (Config.VObj merged, true)
    ∧ Config.loadFromFile env (Config.defaults Config.VUndefined)
        "config.json"
      = Config.Returns (Config.VObj merged, true).
Proof.
  intros env.
  destruct (loadFromFile_copies_agree env "config.json" "{}"
              (Config.ownProperties (Config.defaults Config.VUndefined))
              {[ "debug" := Config.VBool true;
                 "cache" := Config.VObj {[ "ttl" := Config.VNum 60 ]} ]}
              eq_refl eq_refl ltac:(by vm_compute))
    as (merged & Hspread & _ & Hmerge).
  exists merged. split; [exact Hspread|]. apply Hmerge.
  intros key v Hkey Hv.
  destruct (decide (key = "debug")) as [->|Hdebug].
  { rewrite lookup_insert_eq in Hkey. by simplify_eq. }
  rewrite lookup_insert_ne in Hkey by done.
  destruct (decide (key = "cache")) as [->|Hcache]; [by vm_compute|].
  by rewrite lookup_singleton_ne in Hkey.
Defined.

(** ** Writing twice *)

Section Overwrite.
Import Config.

Lemma assign_again x y keys :
  ∀ current current',
    passable keys current = true →
    assign keys x current = Returns current' →
    passable keys current' = true
    ∧ assign keys y current' = assign keys y current.
Proof.
  induction keys as [|k [|k' rest] IH]; intros current current' Hpass Hx.
  - done.
  - destruct current as [| | | | | |properties]; try done.
    rewrite (assign_last _ _ _ Hpass) in Hx. simplify_eq.
    assert (passable [k] (VObj (<[k := x]> properties)) = true) as Hpass'.
    { cbn [passable]. by rewrite lookup_insert_eq. }
    split; [done|].
    rewrite (assign_last _ _ _ Hpass'), (assign_last _ _ _ Hpass).
    by rewrite insert_insert_eq.
  - destruct current as [| | | | | |properties]; try done.
    assert (∀ child child',
              passable (k' :: rest) child = true →
              assign (k' :: rest) x child = Returns child' →
              passable (k :: k' :: rest) (VObj (<[k := child']> properties))
              = true
              ∧ assign (k :: k' :: rest) y
                  (VObj (<[k := child']> properties))
                = child'' ← assign (k' :: rest) y child;
                  Returns (VObj (<[k := child'']> properties))) as Hstep.
    { intros child child' Hchild Hchild'.
      destruct (IH child child' Hchild Hchild') as [Hpass' Hagain].
      destruct (assign_walk x (k' :: rest) child Hchild)
        as (c & Hc & Hobj & _).
      rewrite Hchild' in Hc. simplify_eq.
      assert (truthy c = true) as Htruthy by by destruct c.
      split.
      - rewrite passable_step, lookup_insert_eq. by rewrite Htruthy.
      - rewrite (assign_descend k k' rest y _ c);
          [|by rewrite lookup_insert_eq|done].
        rewrite Hagain.
        destruct (assign (k' :: rest) y child); cbn [mbind outcome_bind];
          try done.
        by rewrite insert_insert_eq. }
    rewrite passable_step in Hpass.
    destruct (properties !! k) as [child|] eqn:Hk;
      [destruct (truthy child) eqn:Ht|].
    + rewrite (assign_descend _ _ _ _ _ _ Hk Ht) in Hx.
      destruct (assign (k' :: rest) x child) as [child'| |] eqn:Hchild';
        cbn [mbind outcome_bind] in Hx; try done.
      simplify_eq.
      destruct (Hstep child child' Hpass Hchild') as [Hpass' ->].
      split; [done|]. by rewrite (assign_descend _ _ _ _ _ _ Hk Ht).
    + assert (assign (k :: k' :: rest) x (VObj properties)
              = child' ← assign (k' :: rest) x (VObj ∅);
                Returns (VObj (<[k := child']> properties))) as Hfresh
        by (apply assign_fresh; by rewrite Hk).
      rewrite Hfresh in Hx.
      destruct (assign (k' :: rest) x (VObj ∅)) as [child'| |] eqn:Hchild';
        cbn [mbind outcome_bind] in Hx; try done.
      simplify_eq.
      destruct (Hstep (VObj ∅) child' Hpass Hchild') as [Hpass' ->].
      split; [done|]. symmetry. apply assign_fresh; by rewrite Hk.
    + apply andb_true_iff in Hpass as [Hin Hpass].
      apply negb_true_iff in Hin.
      assert (assign (k :: k' :: rest) x (VObj properties)
              = child' ← assign (k' :: rest) x (VObj ∅);
                Returns (VObj (<[k := child']> properties))) as Hfresh
        by (apply assign_fresh; by rewrite Hk).
      rewrite Hfresh in Hx.
      destruct (assign (k' :: rest) x (VObj ∅)) as [child'| |] eqn:Hchild';
        cbn [mbind outcome_bind] in Hx; try done.
      simplify_eq.
      destruct (Hstep (VObj ∅) child' Hpass Hchild') as [Hpass' ->].
      split; [done|]. symmetry. apply assign_fresh; by rewrite Hk.
Qed.

End Overwrite.

(** X25.  The last write wins and the first leaves no trace: on a path
    that [set] can follow (through own keys that hold mappings or falsy
    values and through absent keys that are not names inherited from
    [Object.prototype]), a [set] after a [set] of the same key gives the
    document that the second [set] alone gives. *)
Theorem set_overwrites (config : Config.value) (key : string)
    (x y : Config.value) :
  Config.passable (Config.split key) config = true →
  ∃ first second,
    Config.set config key x = Config.Returns first
    ∧ Config.set first key y = Config.Returns second
    ∧ Config.set config key y = Config.Returns second
    ∧ Config.get second key = Config.Returns y.
Proof.
  intros Hpass. unfold Config.set, Config.get.
  destruct (assign_walk x _ _ Hpass) as (first & Hfirst & _ & _).
  destruct (assign_walk y _ _ Hpass) as (second & Hsecond & _ & Hget).
  destruct (assign_again x y _ _ _ Hpass Hfirst) as [_ Hagain].
  exists first, second. by rewrite Hagain.
Qed.

Lemma set_overwrites_witness :
  ∃ first second,
    Config.set (Config.defaults Config.VUndefined) "paths.output.dir"
      (Config.VStr "./out")
    = Config.Returns first
    ∧ Config.set first "paths.output.dir" (Config.VStr "./dist")
      = Config.Returns second
    ∧ Config.set (Config.defaults Config.VUndefined) "paths.output.dir"
        (Config.VStr "./dist")
      = Config.Returns second
    ∧ Config.get second "paths.output.dir"
      = Config.Returns (Config.VStr "./dist").
Proof.
  apply (set_overwrites (Config.defaults Config.VUndefined)
           "paths.output.dir" (Config.VStr "./out") (Config.VStr "./dist")).
  by vm_compute.
Defined.


